(** * Nudgy mascot generators: keyframe synthesis, path construction,
      point rotation and asset embedding.

    A shallow embedding of
    - [generate_nudgy_lottie_v1.py]: keyframe tracks, the assembled
      document, path constructors and the wing's rotation helpers;
    - [generate_nudgy_svg.py]: the markup ellipse and body paths and the
      rotation helper of its wing;
    - [generate_app_icon_v2.py]: the body outline of [draw_body_shape];
    - [lottie_downloads/embed_images.py]: the asset embedding loop.

    Python floats are read as exact numbers: rationals [Q] for the keyframe
    tracks, which only add and multiply literals, and reals [R] for the
    path geometry, which needs [cos] and [sin].  Python [int] frame numbers
    are [Z]. *)

From Stdlib Require Import ZArith QArith Qabs List Lia Lra Bool String.
From Stdlib Require Import Reals Psatz.
From Stdlib Require Import Sorted.
From Stdlib Require Finite.
Import ListNotations.

(** ** Keyframe tracks ([generate_nudgy_lottie_v1.py], "Animation keyframe
       helpers" and the [build_*] functions) *)
Module Timeline.

Local Open Scope Z_scope.
Local Open Scope Q_scope.

(** Canvas and timing constants. *)
Definition W : Z := 400%Z.
Definition H : Z := 460%Z.
Definition FPS : Z := 30%Z.
Definition DURATION_SECONDS : Z := 7%Z.
Definition TOTAL_FRAMES : Z := (FPS * DURATION_SECONDS)%Z.

(** [W/2] and [H/2] are true divisions in Python. *)
Definition half (n : Z) : Q := inject_Z n / 2.

(** An easing handle [{"x": [...], "y": [...]}]. *)
Record handle := { hx : list Q; hy : list Q }.

(** A keyframe [{"t": t, "s": val, "i": ei, "o": eo}]; the closing
    keyframes of the source carry no ["i"]/["o"] entries. *)
Record keyframe (A : Type) := MkKf {
  kf_t : Z;
  kf_s : A;
  kf_i : option handle;
  kf_o : option handle
}.
Arguments MkKf {A} _ _ _ _.
Arguments kf_t {A} _.
Arguments kf_s {A} _.
Arguments kf_i {A} _.
Arguments kf_o {A} _.

(** An animatable property [{"a": 0, "k": v}] or [{"a": 1, "k": [kf...]}]. *)
Inductive prop (A : Type) :=
| Static (k : A)
| Animated (k : list (keyframe A)).
Arguments Static {A} _.
Arguments Animated {A} _.

Definition vec3 : Type := Q * Q * Q.

Definition vx (v : vec3) : Q := fst (fst v).
Definition vy (v : vec3) : Q := snd (fst v).
Definition vz (v : vec3) : Q := snd v.

(** The layer transform ["ks"]. *)
Record transform := MkTransform {
  tr_o : prop Q;
  tr_r : prop Q;
  tr_p : prop vec3;
  tr_a : prop vec3;
  tr_s : prop vec3
}.

Definition default_transform : transform :=
  {| tr_o := Static 100;
     tr_r := Static 0;
     tr_p := Static (half W, half H, 0);
     tr_a := Static (half W, half H, 0);
     tr_s := Static (100, 100, 100) |}.

Definition set_r (r : prop Q) (tr : transform) : transform :=
  {| tr_o := tr_o tr; tr_r := r; tr_p := tr_p tr; tr_a := tr_a tr;
     tr_s := tr_s tr |}.
Definition set_p (p : prop vec3) (tr : transform) : transform :=
  {| tr_o := tr_o tr; tr_r := tr_r tr; tr_p := p; tr_a := tr_a tr;
     tr_s := tr_s tr |}.
Definition set_s (s : prop vec3) (tr : transform) : transform :=
  {| tr_o := tr_o tr; tr_r := tr_r tr; tr_p := tr_p tr; tr_a := tr_a tr;
     tr_s := s |}.

(** [smooth_ease()] and its three-component spelling used for positions. *)
Definition smooth_ease : handle * handle :=
  ({| hx := [0.42]; hy := [1] |}, {| hx := [0.58]; hy := [0] |}).
Definition smooth_in3 : handle :=
  {| hx := [0.42; 0.42; 0.42]; hy := [1; 1; 1] |}.
Definition smooth_out3 : handle :=
  {| hx := [0.58; 0.58; 0.58]; hy := [0; 0; 0] |}.

(** The ping-pong loop that the source writes out five times

<<
    while t <= TOTAL_FRAMES:
        keyframes.append(kf(t, direction))
        t += half_cycle
        direction *= -1
>>

    with the appended list returned front to back.  The loop does not end
    for a non-positive step, so the model takes fuel: [None] means the fuel
    ran out before the loop condition failed. *)
Fixpoint sway_loop {A : Type} (fuel : nat) (mk : Z -> Z -> keyframe A)
    (step total t direction : Z) : option (list (keyframe A)) :=
  match fuel with
  | O => None
  | S fuel' =>
      if (t <=? total)%Z then
        match sway_loop fuel' mk step total (t + step)%Z (direction * -1)%Z with
        | Some rest => Some (mk t direction :: rest)
        | None => None
        end
      else Some []
  end.

(** Number of times the loop body runs. *)
Definition iterations (step total t : Z) : nat :=
  Z.to_nat ((total - t) / step + 1)%Z.

(** Sign carried by the [k]-th keyframe of a loop started with [dir], and
    the keyframes the loop emits when its body runs [n] times; the loop is
    compared with this closed form below. *)
Definition sign_at (dir : Z) (k : nat) : Z := (dir * (-1) ^ Z.of_nat k)%Z.

Definition sway_list {A : Type} (mk : Z -> Z -> keyframe A)
    (step t dir : Z) (n : nat) : list (keyframe A) :=
  map (fun k => mk (t + Z.of_nat k * step)%Z (sign_at dir k)) (seq 0 n).

(** [sway_keyframes(axis, amplitude, frames_per_half_cycle)]. *)
Inductive axis := AxisX | AxisOther.

Definition sway_keyframes (fuel : nat) (ax : axis) (amplitude : Q)
    (frames_per_half_cycle : Z) : option (list (keyframe (Q * Q))) :=
  let '(ei, eo) := smooth_ease in
  match
    sway_loop fuel
      (fun t direction =>
         let val := match ax with
                    | AxisX => (amplitude * inject_Z direction, 0)
                    | AxisOther => (0, amplitude * inject_Z direction)
                    end in
         MkKf t val (Some ei) (Some eo))
      frames_per_half_cycle TOTAL_FRAMES 0%Z 1%Z
  with
  | Some keyframes => Some (keyframes ++ [MkKf TOTAL_FRAMES (0, 0) None None])
  | None => None
  end.

(** The position loop written inline in [generate_lottie] (lines 767-784),
    with its locals [static_val], [sway_amp], [half_cycle] and the module
    constant [TOTAL_FRAMES] as arguments.  The closing keyframe is
    [static_val[0] + sway_amp], whatever the loop did. *)
Definition sway_position_keyframes (fuel : nat) (static_val : vec3)
    (sway_amp : Q) (half_cycle total : Z) : option (list (keyframe vec3)) :=
  match
    sway_loop fuel
      (fun t direction =>
         MkKf t
           (vx static_val + sway_amp * inject_Z direction,
            vy static_val, vz static_val)
           (Some smooth_in3) (Some smooth_out3))
      half_cycle total 0%Z 1%Z
  with
  | Some pos_kfs =>
      Some (pos_kfs ++
            [MkKf total
               (vx static_val + sway_amp, vy static_val, vz static_val)
               None None])
  | None => None
  end.

(** [build_body_sway_layer()]: a position track and a rotation track. *)
Definition build_body_sway_layer (fuel : nat) : option transform :=
  let sway_amp : Q := 2.0 in
  let half_cycle : Z := 45%Z in
  match
    sway_loop fuel
      (fun t direction =>
         MkKf t (half W + sway_amp * inject_Z direction, half H, 0)
           (Some smooth_in3) (Some smooth_out3))
      half_cycle TOTAL_FRAMES 0%Z 1%Z,
    sway_loop fuel
      (fun t direction =>
         MkKf t (0.8 * inject_Z direction)
           (Some {| hx := [0.42]; hy := [1] |})
           (Some {| hx := [0.58]; hy := [0] |}))
      half_cycle TOTAL_FRAMES 0%Z 1%Z
  with
  | Some pos_keyframes, Some rot_keyframes =>
      let pos := pos_keyframes ++
                 [MkKf TOTAL_FRAMES (half W + sway_amp, half H, 0) None None] in
      let rot := rot_keyframes ++ [MkKf TOTAL_FRAMES 0.8 None None] in
      Some (set_r (Animated rot) (set_p (Animated pos) default_transform))
  | _, _ => None
  end.

(** [build_scarf_counter_sway()]: the loop starts at [phase_offset] with
    [direction = -1]; the closing keyframe holds [W/2]. *)
Definition build_scarf_counter_sway (fuel : nat) : option transform :=
  let half_cycle : Z := 45%Z in
  let phase_offset : Z := 8%Z in
  let sway_amp : Q := 1.5 in
  match
    sway_loop fuel
      (fun t direction =>
         MkKf t (half W + sway_amp * inject_Z direction, half H, 0)
           (Some smooth_in3) (Some smooth_out3))
      half_cycle TOTAL_FRAMES phase_offset (-1)%Z
  with
  | Some pos_keyframes =>
      let pos := pos_keyframes ++
                 [MkKf TOTAL_FRAMES (half W, half H, 0) None None] in
      Some (set_p (Animated pos) default_transform)
  | None => None
  end.

(** The scale track of [build_eye_layer], with the locals
    [blink_frame_1] and [blink_frame_2] as arguments. *)
Definition ei_fast : handle := {| hx := [0.33]; hy := [1] |}.
Definition eo_fast : handle := {| hx := [0.67]; hy := [0] |}.

Definition open_scale : vec3 := (100, 100, 100).
Definition closed_scale : vec3 := (100, 15, 100).

Definition eye_scale_keyframes (blink_frame_1 blink_frame_2 : Z)
    : list (keyframe vec3) :=
  let kf t s := MkKf t s (Some ei_fast) (Some eo_fast) in
  [ kf 0%Z open_scale;
    kf (blink_frame_1 - 2)%Z open_scale;
    kf blink_frame_1 closed_scale;
    kf (blink_frame_1 + 1)%Z closed_scale;
    kf (blink_frame_1 + 4)%Z open_scale;
    kf (blink_frame_2 - 2)%Z open_scale;
    kf blink_frame_2 closed_scale;
    kf (blink_frame_2 + 1)%Z closed_scale;
    kf (blink_frame_2 + 4)%Z open_scale;
    MkKf TOTAL_FRAMES open_scale None None ].

(** Reference size and [p(fraction)]. *)
Definition PSIZE : Q := 340.
Definition p (fraction : Q) : Q := fraction * PSIZE.

(** The pupil radius [er] of [build_eye_layer(side, name)]. *)
Definition eye_radius (side : Z) : Q :=
  let base_r := p 0.042 in
  base_r * (if (side =? 1)%Z then 1.05 else 1.0).

(** A shape layer as far as the tracks go: name, transform and the index
    assigned by [generate_lottie].  The nested shapes are built by the path
    constructors of module [PathBuilder]. *)
Record layer := MkLayer {
  nm : string;
  ks : transform;
  ind : option Z
}.

Definition make_shape_layer (name : string) (tr : transform) : layer :=
  {| nm := name; ks := tr; ind := None |}.

Definition tilted : transform := set_r (Static 3) default_transform.

Definition build_feet_layer : layer := make_shape_layer "Feet" default_transform.
Definition build_body_layer : layer := make_shape_layer "Body" default_transform.
Definition build_belly_layer : layer := make_shape_layer "Belly" default_transform.
Definition build_wing_layer (side : Z) (name : string) : layer :=
  make_shape_layer name default_transform.
Definition build_scarf_layer : layer := make_shape_layer "Scarf" default_transform.
Definition build_head_layer : layer := make_shape_layer "Head" tilted.
Definition build_face_patch_layer : layer := make_shape_layer "Face Patch" tilted.
Definition build_eye_layer (side : Z) (name : string) : layer :=
  let blink_frame_1 := 100%Z in
  let blink_frame_2 := 195%Z in
  make_shape_layer name
    (set_s (Animated (eye_scale_keyframes blink_frame_1 blink_frame_2)) tilted).
Definition build_beak_layer : layer := make_shape_layer "Beak" tilted.
Definition build_blush_layer : layer := make_shape_layer "Blush" tilted.

(** The last loop of [generate_lottie]: every layer whose position is still
    static gets the sway track around its own static position. *)
Fixpoint add_sway (fuel : nat) (layers : list layer) : option (list layer) :=
  match layers with
  | [] => Some []
  | l :: rest =>
      let updated :=
        match tr_p (ks l) with
        | Static static_val =>
            let half_cycle := 45%Z in
            let sway_amp := 2.0 in
            match sway_position_keyframes fuel static_val sway_amp half_cycle
                    TOTAL_FRAMES with
            | Some pos_kfs =>
                Some {| nm := nm l; ks := set_p (Animated pos_kfs) (ks l);
                        ind := ind l |}
            | None => None
            end
        | Animated _ => Some l
        end in
      match updated, add_sway fuel rest with
      | Some l', Some rest' => Some (l' :: rest')
      | _, _ => None
      end
  end.

(** [for i, layer in enumerate(layers): layer["ind"] = i]. *)
Fixpoint assign_indices (i : Z) (layers : list layer) : list layer :=
  match layers with
  | [] => []
  | l :: rest =>
      {| nm := nm l; ks := ks l; ind := Some i |}
        :: assign_indices (i + 1)%Z rest
  end.

Record lottie := MkLottie {
  v : string;
  fr : Z;
  ip : Z;
  op : Z;
  w : Z;
  h : Z;
  comp_nm : string;
  layers : list layer
}.

(** [generate_lottie()].  The transform computed by
    [build_body_sway_layer()] is bound to [sway_transform] and not used
    again; it is evaluated all the same. *)
Definition generate_lottie (fuel : nat) : option lottie :=
  match build_body_sway_layer fuel, build_scarf_counter_sway fuel with
  | Some sway_transform, Some scarf_ks =>
      let feet := build_feet_layer in
      let body := build_body_layer in
      let belly := build_belly_layer in
      let left_wing := build_wing_layer (-1) "Left Wing" in
      let right_wing := build_wing_layer 1 "Right Wing" in
      let scarf := build_scarf_layer in
      let head := build_head_layer in
      let face_patch := build_face_patch_layer in
      let left_eye := build_eye_layer (-1) "Left Eye" in
      let right_eye := build_eye_layer 1 "Right Eye" in
      let beak := build_beak_layer in
      let blush := build_blush_layer in
      let scarf := {| nm := nm scarf; ks := scarf_ks; ind := ind scarf |} in
      let layers :=
        [blush; beak; right_eye; left_eye; face_patch; head; scarf;
         right_wing; left_wing; belly; body; feet] in
      match add_sway fuel (assign_indices 0 layers) with
      | Some layers =>
          Some {| v := "5.12.1"; fr := FPS; ip := 0; op := TOTAL_FRAMES;
                  w := W; h := H; comp_nm := "Nudgy Idle"; layers := layers |}
      | None => None
      end
  | _, _ => None
  end.

(** *** Playback

    The document is declarative; a player evaluates a track at a frame.
    Before the first keyframe it shows the first keyframe's value, after
    the last one the last value, and inside a segment it blends the two
    ends with the segment's easing curve.  The easing curve is the
    player's (a cubic bezier solved numerically from the handles), so it
    is an argument here. *)
Class Blend (A : Type) := blend : Q -> A -> A -> A.

#[global] Instance blend_Q : Blend Q := fun e a b => a + (b - a) * e.
#[global] Instance blend_vec3 : Blend vec3 := fun e a b =>
  (blend e (vx a) (vx b), blend e (vy a) (vy b), blend e (vz a) (vz b)).

Section Playback.
Context {A : Type} `{Blend A}.
Variable ease : option handle -> option handle -> Q -> Q.

Fixpoint value_from (prev : keyframe A) (rest : list (keyframe A)) (t : Z)
    : A :=
  match rest with
  | [] => kf_s prev
  | next :: rest' =>
      if (t <? kf_t next)%Z then
        if (t <=? kf_t prev)%Z then kf_s prev
        else
          let u := inject_Z (t - kf_t prev) /
                   inject_Z (kf_t next - kf_t prev) in
          blend (ease (kf_o prev) (kf_i next) u) (kf_s prev) (kf_s next)
      else value_from next rest' t
  end.

Definition value_at (track : list (keyframe A)) (t : Z) : option A :=
  match track with
  | [] => None
  | k :: rest => Some (value_from k rest t)
  end.
End Playback.

(** [ceil(a / b)] for a positive [b]. *)
Definition ceil_div (a b : Z) : Z := (- ((- a) / b))%Z.

(** Times and reduced first coordinates of a position track. *)
Definition times_and_x (track : list (keyframe vec3)) : list (Z * Q) :=
  map (fun k => (kf_t k, Qred (vx (kf_s k)))) track.

(** The layer of a document with a given name. *)
Definition layer_named (name : string) (doc : lottie) : option layer :=
  find (fun l => String.eqb (nm l) name) (layers doc).

(** A position or scale track loops when its values at frame 0 and at
    frame [TOTAL_FRAMES] agree within the tolerance. *)
Definition track_loops (ease : option handle -> option handle -> Q -> Q)
    (eps : Q) (track : list (keyframe vec3)) : Prop :=
  exists a b,
    value_at ease track 0%Z = Some a /\
    value_at ease track TOTAL_FRAMES = Some b /\
    Qabs (vx a - vx b) <= eps /\ Qabs (vy a - vy b) <= eps /\
    Qabs (vz a - vz b) <= eps.

Definition prop_loops (ease : option handle -> option handle -> Q -> Q)
    (eps : Q) (pr : prop vec3) : Prop :=
  match pr with
  | Static _ => True
  | Animated track => track_loops ease eps track
  end.

(** Largest difference the loop seam may show. *)
Definition seam_tolerance : Q := 0.001.

(** Component-wise equality of values and "equal within [eps]". *)
Definition vec3_eq (a b : vec3) : Prop :=
  vx a == vx b /\ vy a == vy b /\ vz a == vz b.

Definition vec3_close (eps : Q) (a b : vec3) : Prop :=
  Qabs (vx a - vx b) <= eps /\ Qabs (vy a - vy b) <= eps /\
  Qabs (vz a - vz b) <= eps.

End Timeline.

(** ** Path construction ([generate_nudgy_lottie_v1.py], "Bezier helpers",
       and the path functions of [generate_nudgy_svg.py]) *)
Module PathBuilder.

Local Open Scope R_scope.

Definition point : Type := R * R.

(** The dictionary [{"c": True, "v": vertices, "i": in_tangents,
    "o": out_tangents}]; tangents are relative to their vertex. *)
Record path := MkPath {
  closed : bool;
  vertices : list point;
  in_tangents : list point;
  out_tangents : list point
}.

(** Artboard constants, the same in both generators. *)
Definition W : R := 400.
Definition H : R := 460.
Definition CX : R := W / 2.
Definition CY : R := H / 2 + 10.
Definition PSIZE : R := 340.
Definition p (fraction : R) : R := fraction * PSIZE.

Definition KAPPA : R := 0.5522848.

Definition ellipse_bezier_path (cx cy rx ry : R) : path :=
  {| closed := true;
     vertices := [ (cx, cy - ry); (cx + rx, cy); (cx, cy + ry); (cx - rx, cy) ];
     in_tangents := [ (- rx * KAPPA, 0); (0, - ry * KAPPA);
                      (rx * KAPPA, 0); (0, ry * KAPPA) ];
     out_tangents := [ (rx * KAPPA, 0); (0, ry * KAPPA);
                       (- rx * KAPPA, 0); (0, - ry * KAPPA) ] |}.

Definition egg_shape_path (cx cy body_w body_h : R) : path :=
  let body_cy := cy in
  let top_y := body_cy - body_h * 0.85 in
  {| closed := true;
     vertices := [ (cx, top_y);
                   (cx + body_w * 0.95, body_cy - body_h * 0.1);
                   (cx + body_w * 0.75, body_cy + body_h * 0.7);
                   (cx, body_cy + body_h * 0.95);
                   (cx - body_w * 0.75, body_cy + body_h * 0.7);
                   (cx - body_w * 0.95, body_cy - body_h * 0.1) ];
     in_tangents := [ (- body_w * 0.45, 0);
                      (0, - body_h * 0.45);
                      (body_w * 0.25, body_h * 0.15);
                      (body_w * 0.4, 0);
                      (- body_w * 0.25, body_h * 0.15);
                      (0, body_h * 0.45) ];
     out_tangents := [ (body_w * 0.45, 0);
                       (0, body_h * 0.45);
                       (- body_w * 0.25, body_h * 0.15);
                       (- body_w * 0.4, 0);
                       (body_w * 0.25, body_h * 0.15);
                       (0, - body_h * 0.45) ] |}.

Definition rounded_triangle_path (cx cy w h : R) : path :=
  {| closed := true;
     vertices := [ (cx, cy + h);
                   (cx - w * 0.8, cy - h * 0.5);
                   (cx + w * 0.8, cy - h * 0.5) ];
     in_tangents := [ (w * 0.3, - h * 0.3); (0, h * 0.3); (w * 0.3, 0) ];
     out_tangents := [ (- w * 0.3, - h * 0.3); (- w * 0.3, 0); (0, h * 0.3) ] |}.

(** [math.radians]. *)
Definition radians (deg : R) : R := deg * PI / 180.

(** The closures [rot] and [rot_t] of [wing_path]; they capture the angle
    [rad] (through [cos_a], [sin_a]) and the pivot [(wing_x, oy)]. *)
Definition rot (rad ox oy : R) (x y : R) : point :=
  (x * cos rad - y * sin rad + ox, x * sin rad + y * cos rad + oy).

Definition rot_t (rad : R) (x y : R) : point :=
  (x * cos rad - y * sin rad, x * sin rad + y * cos rad).

Definition wing_path (cx cy : R) (side : Z) (wing_w wing_h angle_deg : R)
    : path :=
  let sd := IZR side in
  let wing_x := cx + sd * p 0.37 in
  let wy := cy + p 0.02 in
  let oy := wy - wing_h * 0.4 in
  let rad := radians (sd * angle_deg) in
  let p0 := rot rad wing_x oy 0 (- wing_h * 0.5) in
  let p1 := rot rad wing_x oy (sd * wing_w * 0.9) 0 in
  let p2 := rot rad wing_x oy (sd * wing_w * 0.4) (wing_h * 0.5) in
  let p3 := rot rad wing_x oy (- sd * wing_w * 0.1) 0 in
  {| closed := true;
     vertices := [p0; p1; p2; p3];
     in_tangents := [ rot_t rad (- sd * wing_w * 0.2) (- wing_h * 0.1);
                      rot_t rad 0 (- wing_h * 0.25);
                      rot_t rad (sd * wing_w * 0.3) 0;
                      rot_t rad 0 (wing_h * 0.2) ];
     out_tangents := [ rot_t rad (sd * wing_w * 0.3) 0;
                       rot_t rad 0 (wing_h * 0.25);
                       rot_t rad (- sd * wing_w * 0.2) 0;
                       rot_t rad 0 (- wing_h * 0.2) ] |}.

Definition scarf_path (cx cy : R) : path :=
  let scarf_y := cy - p 0.065 in
  let sh := p 0.035 in
  let sw := p 0.30 in
  {| closed := true;
     vertices := [ (cx - sw, scarf_y - sh);
                   (cx, scarf_y - sh * 1.8);
                   (cx + sw, scarf_y - sh);
                   (cx + sw * 0.5, scarf_y + sh * 2);
                   (cx + sw * 0.65, scarf_y + sh * 5);
                   (cx + sw * 0.25, scarf_y + sh * 3);
                   (cx - sw * 0.3, scarf_y + sh * 2) ];
     in_tangents := [ (0, sh * 0.5);
                      (- sw * 0.4, 0);
                      (sw * 0.4, 0);
                      (sw * 0.15, - sh * 1.5);
                      (sw * 0.1, - sh * 1.0);
                      (sw * 0.1, sh * 0.8);
                      (- sw * 0.3, sh * 0.3) ];
     out_tangents := [ (0, - sh * 0.5);
                       (sw * 0.4, 0);
                       (sw * 0.05, sh * 1.0);
                       (sw * 0.1, sh * 1.2);
                       (- sw * 0.15, sh * 0.8);
                       (- sw * 0.15, - sh * 1.0);
                       (- sw * 0.4, - sh * 0.3) ] |}.

(** The flipper in its local frame, as [wing_path] writes it down before
    [rot] and [rot_t] are applied. *)
Definition wing_local (side : Z) (wing_w wing_h : R) : path :=
  let sd := IZR side in
  {| closed := true;
     vertices := [ (0, - wing_h * 0.5);
                   (sd * wing_w * 0.9, 0);
                   (sd * wing_w * 0.4, wing_h * 0.5);
                   (- sd * wing_w * 0.1, 0) ];
     in_tangents := [ (- sd * wing_w * 0.2, - wing_h * 0.1);
                      (0, - wing_h * 0.25);
                      (sd * wing_w * 0.3, 0);
                      (0, wing_h * 0.2) ];
     out_tangents := [ (sd * wing_w * 0.3, 0);
                       (0, wing_h * 0.25);
                       (- sd * wing_w * 0.2, 0);
                       (0, - wing_h * 0.2) ] |}.

(** [rot] on every vertex and [rot_t] on every tangent, the way
    [wing_path] uses them. *)
Definition rotate_path (rad ox oy : R) (pa : path) : path :=
  {| closed := closed pa;
     vertices := map (fun q => rot rad ox oy (fst q) (snd q)) (vertices pa);
     in_tangents := map (fun q => rot_t rad (fst q) (snd q)) (in_tangents pa);
     out_tangents :=
       map (fun q => rot_t rad (fst q) (snd q)) (out_tangents pa) |}.

(** A rotation about the pivot read on artboard points: [rot] applied to
    the point's offset from the pivot. *)
Definition about_pivot (rad ox oy : R) (q : point) : point :=
  rot rad ox oy (fst q - ox) (snd q - oy).

(** The body path handed to the animation by [build_body_layer]. *)
Definition lottie_body_path : path :=
  let body_w := p 0.44 in
  let body_h := p 0.48 in
  let body_cy := CY + p 0.08 in
  egg_shape_path CX body_cy body_w body_h.

End PathBuilder.

(** ** Drawn paths ([generate_nudgy_svg.py] and the body of
       [generate_app_icon_v2.py]) *)
Module Vector.

Local Open Scope R_scope.
Import PathBuilder.

(** The path data [M x y C x1 y1, x2 y2, x y ... Z], and equally the cairo
    calls [move_to], [curve_to], [close_path].  The markup prints each
    number through [fmt] (two decimals); the commands below hold the
    numbers handed to [fmt]. *)
Inductive cmd :=
| MoveTo (pt : point)
| CurveTo (c1 c2 pt : point)
| ClosePath.


(** [draw_body_shape(ctx, cx, cy, psize)] of the icon generator, up to the
    fill. *)
Definition draw_body_shape (cx cy psize : R) : list cmd :=
  let body_w := psize * 0.44 in
  let body_h := psize * 0.48 in
  let body_cy := cy + psize * 0.08 in
  let top_x := cx in
  let top_y := body_cy - body_h * 0.85 in
  [ MoveTo (top_x, top_y);
    CurveTo (cx + body_w * 0.6, top_y)
            (cx + body_w * 1.1, body_cy - body_h * 0.15)
            (cx + body_w * 0.95, body_cy + body_h * 0.5);
    CurveTo (cx + body_w * 0.85, body_cy + body_h * 0.85)
            (cx + body_w * 0.4, body_cy + body_h * 1.0)
            (cx, body_cy + body_h * 0.95);
    CurveTo (cx - body_w * 0.4, body_cy + body_h * 1.0)
            (cx - body_w * 0.85, body_cy + body_h * 0.85)
            (cx - body_w * 0.95, body_cy + body_h * 0.5);
    CurveTo (cx - body_w * 1.1, body_cy - body_h * 0.15)
            (cx - body_w * 0.6, top_y)
            (top_x, top_y);
    ClosePath ].

(** [body_path()] of the markup generator. *)
Definition body_path : list cmd :=
  let body_w := p 0.44 in
  let body_h := p 0.48 in
  let body_cy := CY + p 0.08 in
  let top_x := CX in
  let top_y := body_cy - body_h * 0.85 in
  [ MoveTo (top_x, top_y);
    CurveTo (CX + body_w * 0.6, top_y)
            (CX + body_w * 1.1, body_cy - body_h * 0.15)
            (CX + body_w * 0.95, body_cy + body_h * 0.5);
    CurveTo (CX + body_w * 0.85, body_cy + body_h * 0.85)
            (CX + body_w * 0.4, body_cy + body_h * 1.0)
            (CX, body_cy + body_h * 0.95);
    CurveTo (CX - body_w * 0.4, body_cy + body_h * 1.0)
            (CX - body_w * 0.85, body_cy + body_h * 0.85)
            (CX - body_w * 0.95, body_cy + body_h * 0.5);
    CurveTo (CX - body_w * 1.1, body_cy - body_h * 0.15)
            (CX - body_w * 0.6, top_y)
            (top_x, top_y);
    ClosePath ].

(** The closure [rot] of the markup generator's [wing_path(side)]. *)
Definition rot (rad ox oy : R) (x y : R) : point :=
  (x * cos rad - y * sin rad + ox, x * sin rad + y * cos rad + oy).

End Vector.

(** ** What a path denotes

    Both output formats describe chains of cubic bezier segments.  A drawn
    path continues from its current point; a vertex/tangent path joins
    vertex [k] to vertex [k+1] through [v[k] + o[k]] and
    [v[k+1] + i[k+1]], and a closed one joins the last vertex back to the
    first. *)
Module Curve.

Local Open Scope R_scope.
Import PathBuilder.

Record segment := MkSeg { s0 : point; s1 : point; s2 : point; s3 : point }.

Definition bern (a b c d u : R) : R :=
  (1 - u) ^ 3 * a + 3 * (1 - u) ^ 2 * u * b + 3 * (1 - u) * u ^ 2 * c
  + u ^ 3 * d.

Definition bezier (sg : segment) (u : R) : point :=
  (bern (fst (s0 sg)) (fst (s1 sg)) (fst (s2 sg)) (fst (s3 sg)) u,
   bern (snd (s0 sg)) (snd (s1 sg)) (snd (s2 sg)) (snd (s3 sg)) u).

(** Derivative of a segment with respect to its parameter. *)
Definition dbern (a b c d u : R) : R :=
  3 * (1 - u) ^ 2 * (b - a) + 6 * (1 - u) * u * (c - b) + 3 * u ^ 2 * (d - c).

Definition velocity (sg : segment) (u : R) : point :=
  (dbern (fst (s0 sg)) (fst (s1 sg)) (fst (s2 sg)) (fst (s3 sg)) u,
   dbern (snd (s0 sg)) (snd (s1 sg)) (snd (s2 sg)) (snd (s3 sg)) u).

Definition norm2 (q : point) : R := fst q * fst q + snd q * snd q.

(** Length of a vector. *)
Definition plen (q : point) : R := sqrt (norm2 q).

Fixpoint segments_from (cur : point) (cmds : list Vector.cmd) : list segment :=
  match cmds with
  | [] => []
  | Vector.MoveTo pt :: rest => segments_from pt rest
  | Vector.CurveTo c1 c2 pt :: rest =>
      MkSeg cur c1 c2 pt :: segments_from pt rest
  | Vector.ClosePath :: rest => segments_from cur rest
  end.

Definition segments_of_cmds (cmds : list Vector.cmd) : list segment :=
  segments_from (0, 0) cmds.

Definition knot : Type := point * point * point.
Definition knots (pa : path) : list knot :=
  combine (combine (vertices pa) (in_tangents pa)) (out_tangents pa).

Definition padd (a b : point) : point := (fst a + fst b, snd a + snd b).

Definition join (a b : knot) : segment :=
  let '(va, _, oa) := a in
  let '(vb, ib, _) := b in
  MkSeg va (padd va oa) (padd vb ib) vb.

Fixpoint chain (first prev : knot) (rest : list knot) (close : bool)
    : list segment :=
  match rest with
  | [] => if close then [join prev first] else []
  | k :: rest' => join prev k :: chain first k rest' close
  end.

Definition segments_of_path (pa : path) : list segment :=
  match knots pa with
  | [] => []
  | k :: rest => chain k k rest (closed pa)
  end.

(** [rot] on the vertex of a knot and [rot_t] on its tangents. *)
Definition rot_knot (rad ox oy : R) (k : knot) : knot :=
  (rot rad ox oy (fst (fst (fst k))) (snd (fst (fst k))),
   rot_t rad (fst (snd (fst k))) (snd (snd (fst k))),
   rot_t rad (fst (snd k)) (snd (snd k))).

(** A segment with [rot] applied to its four control points. *)
Definition rot_seg (rad ox oy : R) (sg : segment) : segment :=
  let r q := rot rad ox oy (fst q) (snd q) in
  MkSeg (r (s0 sg)) (r (s1 sg)) (r (s2 sg)) (r (s3 sg)).

(** Arc length: the integral of the speed over the parameter interval. *)
Definition speed (sg : segment) (u : R) : R := plen (velocity sg u).

Definition speed_continuous (sg : segment) : continuity (speed sg).
Proof.
  intros u. unfold speed, plen.
  apply (continuity_pt_comp (fun u => norm2 (velocity sg u)) sqrt).
  - unfold norm2, velocity, dbern; cbn [fst snd]. reg.
  - apply continuity_pt_sqrt. unfold norm2. nra.
Qed.

Definition speed_integrable (sg : segment)
    : Riemann_integrable (speed sg) 0 1 :=
  continuity_implies_RiemannInt Rle_0_1 (fun x _ => speed_continuous sg x).

Definition seg_length (sg : segment) : R := RiemannInt (speed_integrable sg).

Definition path_length (segs : list segment) : R :=
  fold_right (fun sg acc => seg_length sg + acc) 0 segs.

Definition on_curve (segs : list segment) (pt : point) : Prop :=
  exists sg u, In sg segs /\ 0 <= u <= 1 /\ bezier sg u = pt.

Definition same_curve (a b : list segment) : Prop :=
  forall pt, on_curve a pt <-> on_curve b pt.

End Curve.

(** ** Calling a path constructor

    None of the five constructors has a [raise] or a check of its
    arguments: a call with numbers always returns the dictionary.  The
    outcome type records that, so that "fails with an error" can be said. *)
Module Calls.

Import PathBuilder.

Inductive error := InvalidGeometry.

Inductive outcome :=
| Returned (pa : path)
| Raised (e : error).

Definition call_ellipse (cx cy rx ry : R) : outcome :=
  Returned (ellipse_bezier_path cx cy rx ry).
Definition call_egg (cx cy body_w body_h : R) : outcome :=
  Returned (egg_shape_path cx cy body_w body_h).
Definition call_rounded_triangle (cx cy w h : R) : outcome :=
  Returned (rounded_triangle_path cx cy w h).
Definition call_wing (cx cy : R) (side : Z) (wing_w wing_h angle_deg : R)
    : outcome :=
  Returned (wing_path cx cy side wing_w wing_h angle_deg).
Definition call_scarf (cx cy : R) : outcome :=
  Returned (scarf_path cx cy).

End Calls.

(** ** Asset embedding ([lottie_downloads/embed_images.py]) *)
Module Embed.

Local Open Scope string_scope.

(** An entry of [data["assets"]], with the four keys the loop touches. *)
Record asset := MkAsset {
  a_id : option string;
  a_p : option string;
  a_u : option string;
  a_e : option Z
}.

(** The opened archive: [z.namelist()] and [z.read(name)]. *)
Record archive := MkArchive {
  namelist : list string;
  read : string -> list Byte.byte
}.

(** What the loop prints, one constructor per [print]. *)
Inductive line :=
| AssetLine (asset_id p u : string) (e : Z)
| EmbeddedLine (possible : string) (nbytes : nat)
| NotFoundLine (possible : string)
| AvailableLine (image_files : list string).

Definition get {A : Type} (x : option A) (default : A) : A :=
  match x with Some a => a | None => default end.

Definition image_files (z : archive) : list string :=
  filter (String.prefix "images/") (namelist z).

Definition mem (x : string) (l : list string) : bool :=
  existsb (String.eqb x) l.

Section Loop.
(** [base64.b64encode(...).decode()] and
    [os.path.splitext(p)[1].lower()] are library calls. *)
Variable b64encode : list Byte.byte -> string.
Variable splitext_lower : string -> string.

Definition mime_of (p : string) : string :=
  let ext := splitext_lower p in
  if String.eqb ext ".webp" then "image/webp"
  else if String.eqb ext ".png" then "image/png"
  else "image/png".

(** One pass of the loop body: the asset as it is left, and the lines
    printed. *)
Definition embed_asset (z : archive) (a : asset) : asset * list line :=
  let asset_id := get (a_id a) EmptyString in
  let p := get (a_p a) EmptyString in
  let u := get (a_u a) EmptyString in
  let header := AssetLine asset_id p u (get (a_e a) 0%Z) in
  let possible := "images/" ++ p in
  if mem possible (image_files z) then
    let img_data := read z possible in
    let mime := mime_of p in
    let b64 := b64encode img_data in
    ({| a_id := a_id a;
        a_p := Some ("data:" ++ mime ++ ";base64," ++ b64);
        a_u := Some EmptyString;
        a_e := Some 1%Z |},
     [header; EmbeddedLine possible (List.length img_data)])
  else
    (a, [header; NotFoundLine possible; AvailableLine (image_files z)]).

(** [for asset in data.get('assets', [])]. *)
Fixpoint embed_assets (z : archive) (assets : list asset)
    : list asset * list line :=
  match assets with
  | [] => ([], [])
  | a :: rest =>
      let '(a', out) := embed_asset z a in
      let '(rest', out') := embed_assets z rest in
      (a' :: rest', (out ++ out')%list)
  end.
End Loop.

Definition lookup_key (a : asset) : string := "images/" ++ get (a_p a) EmptyString.

(** The embedded form of an asset: [u] emptied, [p] a data URI, [e] set. *)
Definition embedded (b64encode : list Byte.byte -> string)
    (splitext_lower : string -> string) (z : archive) (a : asset) : asset :=
  {| a_id := a_id a;
     a_p := Some ("data:" ++ mime_of splitext_lower (get (a_p a) EmptyString)
                  ++ ";base64," ++ b64encode (read z (lookup_key a)));
     a_u := Some EmptyString;
     a_e := Some 1%Z |}.

Definition found (z : archive) (a : asset) : bool :=
  mem (lookup_key a) (image_files z).

(** A small archive and asset list to run the loop on: the archive holds
    [images/a.png] only, the second asset asks for [b.png]. *)
Definition sample_archive : archive :=
  {| namelist := ["images/a.png"; "manifest.json"];
     read := fun _ => [] |}.

Definition sample_assets : list asset :=
  [ MkAsset (Some "0") (Some "a.png") (Some "images/") (Some 0%Z);
    MkAsset (Some "1") (Some "b.png") (Some "images/") (Some 0%Z);
    MkAsset (Some "2") (Some "a.png") (Some "images/") (Some 0%Z) ].

End Embed.

(** ** Fills and gradient stops ([generate_nudgy_lottie_v1.py], "Lottie
       layer constructors") *)
Module Fills.

Local Open Scope Q_scope.

(** [_build_gradient_stops(color_list)]: every [(offset, color)] pair
    appends [[offset] + color] to the result. *)
Fixpoint _build_gradient_stops (color_list : list (Q * list Q)) : list Q :=
  match color_list with
  | [] => []
  | (offset, color) :: rest =>
      (offset :: color) ++ _build_gradient_stops rest
  end.

(** The dictionary of [make_gradient_fill(start, end, colors, opacity)],
    without its constant entries. *)
Record gradient_fill := MkGradientFill {
  gf_o : Q;
  gf_s : list Q;
  gf_e : list Q;
  gf_p : nat;
  gf_k : list Q
}.

Definition make_gradient_fill (start end_ : list Q)
    (colors : list (Q * list Q)) (opacity : Q) : gradient_fill :=
  let num_stops := List.length colors in
  {| gf_o := opacity; gf_s := start; gf_e := end_; gf_p := num_stops;
     gf_k := _build_gradient_stops colors |}.

(** [make_fill(color, opacity)]: the colour gets an alpha of 1 appended. *)
Record solid_fill := MkSolidFill { fl_c : list Q; fl_o : Q }.

Definition make_fill (color : list Q) (opacity : Q) : solid_fill :=
  {| fl_c := color ++ [1]; fl_o := opacity |}.

End Fills.

(** ** The remaining path functions of [generate_nudgy_svg.py] *)
Module Markup.

Local Open Scope R_scope.
Import PathBuilder.
Import Vector.





(** [wing_path(side)]: the flipper's control points in its local frame,
    each sent through [rot]. *)
Definition wing_path (side : Z) : list cmd :=
  let sd := IZR side in
  let wing_h := p 0.22 in
  let wing_w := p 0.10 in
  let wing_y := CY + p 0.02 in
  let wing_x := CX + sd * p 0.37 in
  let angle := sd * 15 in
  let ox := wing_x in
  let oy := wing_y - wing_h * 0.4 in
  let rad := radians angle in
  let p0 := rot rad ox oy 0 (- wing_h * 0.5) in
  let c1 := rot rad ox oy (sd * wing_w * 0.8) (- wing_h * 0.3) in
  let c2 := rot rad ox oy (sd * wing_w * 1.2) (wing_h * 0.1) in
  let p1 := rot rad ox oy (sd * wing_w * 0.6) (wing_h * 0.5) in
  let c3 := rot rad ox oy (sd * wing_w * 0.2) (wing_h * 0.65) in
  let c4 := rot rad ox oy (- sd * wing_w * 0.2) (wing_h * 0.2) in
  let p2 := rot rad ox oy 0 (- wing_h * 0.5) in
  [ MoveTo p0; CurveTo c1 c2 p1; CurveTo c3 c4 p2; ClosePath ].

Definition scarf_path : list cmd :=
  let scarf_y := CY - p 0.065 in
  let scarf_h := p 0.035 in
  let scarf_w := p 0.30 in
  [ MoveTo (CX - scarf_w, scarf_y - scarf_h);
    CurveTo (CX - scarf_w * 0.5, scarf_y - scarf_h * 1.8)
            (CX + scarf_w * 0.5, scarf_y - scarf_h * 1.8)
            (CX + scarf_w, scarf_y - scarf_h);
    CurveTo (CX + scarf_w * 1.05, scarf_y + scarf_h * 0.5)
            (CX + scarf_w * 0.5, scarf_y + scarf_h * 2.5)
            (CX + scarf_w * 0.3, scarf_y + scarf_h * 2.0);
    CurveTo (CX + scarf_w * 0.65, scarf_y + scarf_h * 4.0)
            (CX + scarf_w * 0.85, scarf_y + scarf_h * 5.5)
            (CX + scarf_w * 0.55, scarf_y + scarf_h * 6.5);
    CurveTo (CX + scarf_w * 0.35, scarf_y + scarf_h * 5.0)
            (CX + scarf_w * 0.45, scarf_y + scarf_h * 3.5)
            (CX + scarf_w * 0.15, scarf_y + scarf_h * 2.0);
    CurveTo (CX - scarf_w * 0.3, scarf_y + scarf_h * 2.8)
            (CX - scarf_w * 0.8, scarf_y + scarf_h * 1.5)
            (CX - scarf_w, scarf_y - scarf_h);
    ClosePath ].


End Markup.

(** ** Mirroring and placing *)
Module Layout.

Local Open Scope R_scope.
Import PathBuilder.

(** Reflection in the vertical line [x = cx], on points and on vectors. *)
Definition mirror_point (cx : R) (q : point) : point :=
  (2 * cx - fst q, snd q).
Definition mirror_vector (q : point) : point := (- fst q, snd q).

Definition mirror_path (cx : R) (pa : path) : path :=
  {| closed := closed pa;
     vertices := map (mirror_point cx) (vertices pa);
     in_tangents := map mirror_vector (in_tangents pa);
     out_tangents := map mirror_vector (out_tangents pa) |}.

Definition mirror_cmd (cx : R) (c : Vector.cmd) : Vector.cmd :=
  match c with
  | Vector.MoveTo pt => Vector.MoveTo (mirror_point cx pt)
  | Vector.CurveTo c1 c2 pt =>
      Vector.CurveTo (mirror_point cx c1) (mirror_point cx c2)
        (mirror_point cx pt)
  | Vector.ClosePath => Vector.ClosePath
  end.

(** A point of the unit drawing scaled by [k] and moved to [(cx, cy)]. *)
Definition place (cx cy k : R) (q : point) : point :=
  (cx + k * fst q, cy + k * snd q).

Definition place_cmd (cx cy k : R) (c : Vector.cmd) : Vector.cmd :=
  match c with
  | Vector.MoveTo pt => Vector.MoveTo (place cx cy k pt)
  | Vector.CurveTo c1 c2 pt =>
      Vector.CurveTo (place cx cy k c1) (place cx cy k c2) (place cx cy k pt)
  | Vector.ClosePath => Vector.ClosePath
  end.

(** A path with its centre moved by [(dx, dy)]: vertices move, tangents
    stay. *)
Definition shift_path (dx dy : R) (pa : path) : path :=
  {| closed := closed pa;
     vertices := map (fun q => (fst q + dx, snd q + dy)) (vertices pa);
     in_tangents := in_tangents pa;
     out_tangents := out_tangents pa |}.

End Layout.

(** ** The icon generator's drawing ([generate_app_icon_v2.py])

    Every [draw_*] function is a sequence of calls on the cairo context;
    it is modelled as the list of those calls, in order. *)
Module Icon.

Local Open Scope R_scope.
Import PathBuilder.

Definition RENDER_SIZE : R := 4096.
Definition OUTPUT_SIZE : R := 1024.
Definition S : R := RENDER_SIZE / 1024.0.

(** [s(val)]. *)
Definition s (val : R) : R := val * S.

Definition color : Type := R * R * R.

Definition rgb (r g b : R) : color := (r / 255.0, g / 255.0, b / 255.0).

Definition PLUMAGE_DARK : color := rgb 26 26 46.
Definition PLUMAGE_HIGHLIGHT : color := rgb 42 42 66.
Definition PLUMAGE_EDGE : color := rgb 52 52 80.
Definition BELLY_TOP : color := rgb 245 245 247.
Definition BELLY_BOTTOM : color := rgb 232 232 236.
Definition ACCENT_BLUE : color := rgb 0 122 255.
Definition ACCENT_BLUE_DARK : color := rgb 0 85 204.
Definition ACCENT_BLUE_LIGHT : color := rgb 51 153 255.
Definition EYE_BLACK : color := rgb 10 10 14.
Definition EYE_WHITE : color := rgb 255 255 255.
Definition BG_LIGHT : color := rgb 17 17 22.
Definition BG_DARK : color := rgb 0 0 0.

(** [add_color_stop_rgb] and [add_color_stop_rgba]. *)
Inductive stop :=
| StopRgb (offset : R) (c : color)
| StopRgba (offset r g b a : R).

Inductive pattern :=
| LinearGradient (x0 y0 x1 y1 : R) (stops : list stop)
| RadialGradient (cx0 cy0 radius0 cx1 cy1 radius1 : R) (stops : list stop).

(** The calls made on the context. *)
Inductive op :=
| SetAntialiasBest
| SetSourceRgb (c : color)
| SetSourceRgba (r g b a : R)
| SetSource (pat : pattern)
| Paint
| NewPath
| Path (c : Vector.cmd)
| Arc (xc yc radius angle1 angle2 : R)
| Fill
| FillPreserve
| SetLineWidth (width : R)
| Stroke
| Save
| Restore
| Translate (tx ty : R)
| Rotate (angle : R).

Definition move_to (x y : R) : op := Path (Vector.MoveTo (x, y)).
Definition curve_to (x1 y1 x2 y2 x3 y3 : R) : op :=
  Path (Vector.CurveTo (x1, y1) (x2, y2) (x3, y3)).
Definition close_path : op := Path Vector.ClosePath.

Definition draw_background (variant : string) : list op :=
  let cx := RENDER_SIZE / 2 in
  let cy := RENDER_SIZE / 2 in
  if String.eqb variant "tinted" then
    [ SetSourceRgba 0 0 0 0; Paint ]
  else
    let bg := if String.eqb variant "dark" then BG_DARK else BG_LIGHT in
    let glow_intensity := if String.eqb variant "dark" then 0.30 else 0.40 in
    let glow_radius := s 420 in
    let glow_cy := cy + s 20 in
    [ SetSourceRgb bg; Paint;
      SetSource
        (RadialGradient cx glow_cy 0 cx glow_cy glow_radius
           [ StopRgba 0.0 (0 / 255) (122 / 255) (255 / 255)
               (glow_intensity * 0.6);
             StopRgba 0.4 (0 / 255) (100 / 255) (220 / 255)
               (glow_intensity * 0.3);
             StopRgba 0.7 (0 / 255) (60 / 255) (160 / 255)
               (glow_intensity * 0.1);
             StopRgba 1.0 0 0 0 0 ]);
      Paint ].

(** [draw_body_shape(ctx, cx, cy, psize, shadow)]; its path is
    [Vector.draw_body_shape]. *)
Definition draw_body_shape (cx cy psize : R) (shadow : bool) : list op :=
  let body_w := psize * 0.44 in
  let body_cy := cy + psize * 0.08 in
  [NewPath] ++ map Path (Vector.draw_body_shape cx cy psize) ++
  if shadow then [Fill]
  else
    [ SetSource
        (LinearGradient (cx - body_w) body_cy (cx + body_w) body_cy
           [ StopRgb 0.0 PLUMAGE_EDGE; StopRgb 0.15 PLUMAGE_DARK;
             StopRgb 0.85 PLUMAGE_DARK; StopRgb 1.0 PLUMAGE_EDGE ]);
      Fill ].

(** The oval that [draw_belly], [draw_head], [draw_face_patch] and
    [draw_feet] each write out: [move_to] the top, four [curve_to] with
    [kappa = 0.5522848], [close_path]. *)
Definition kappa_oval (cx cy rx ry : R) : list op :=
  let kappa := 0.5522848 in
  [ move_to cx (cy - ry);
    curve_to (cx + rx * kappa) (cy - ry) (cx + rx) (cy - ry * kappa)
             (cx + rx) cy;
    curve_to (cx + rx) (cy + ry * kappa) (cx + rx * kappa) (cy + ry)
             cx (cy + ry);
    curve_to (cx - rx * kappa) (cy + ry) (cx - rx) (cy + ry * kappa)
             (cx - rx) cy;
    curve_to (cx - rx) (cy - ry * kappa) (cx - rx * kappa) (cy - ry)
             cx (cy - ry);
    close_path ].

Definition draw_belly (cx cy psize : R) : list op :=
  let belly_w := psize * 0.30 in
  let belly_h := psize * 0.38 in
  let belly_cy := cy + psize * 0.14 in
  [NewPath] ++ kappa_oval cx belly_cy belly_w belly_h ++
  [ SetSource
      (LinearGradient cx (belly_cy - belly_h) cx (belly_cy + belly_h)
         [ StopRgb 0.0 BELLY_TOP; StopRgb 0.7 BELLY_TOP;
           StopRgb 1.0 BELLY_BOTTOM ]);
    Fill ].

(** The tilt every head part is drawn under. *)
Definition head_tilt (cx head_cy : R) : list op :=
  [ Save; Translate cx head_cy; Rotate (radians 3);
    Translate (- cx) (- head_cy) ].

Definition draw_head (cx cy psize : R) (shadow : bool) : list op :=
  let head_r := psize * 0.28 in
  let head_cy := cy - psize * 0.22 in
  let rx := head_r * 1.08 in
  let ry := head_r in
  head_tilt cx head_cy ++ [NewPath] ++ kappa_oval cx head_cy rx ry ++
  if shadow then [Fill; Restore]
  else
    [ SetSource
        (RadialGradient (cx - head_r * 0.3) (head_cy - head_r * 0.4) 0
           cx head_cy (head_r * 1.2)
           [ StopRgb 0.0 PLUMAGE_HIGHLIGHT; StopRgb 0.5 PLUMAGE_DARK;
             StopRgb 1.0 PLUMAGE_DARK ]);
      Fill; Restore ].

Definition draw_face_patch (cx cy psize : R) : list op :=
  let head_cy := cy - psize * 0.22 in
  let face_w := psize * 0.20 in
  let face_h := psize * 0.17 in
  let face_cy := head_cy + psize * 0.04 in
  head_tilt cx head_cy ++ [NewPath] ++ kappa_oval cx face_cy face_w face_h ++
  [ SetSourceRgb (1, 1, 1); Fill; Restore ].

Definition draw_eyes (cx cy psize : R) : list op :=
  let head_cy := cy - psize * 0.22 in
  let eye_y := head_cy + psize * 0.01 in
  let eye_spacing := psize * 0.095 in
  head_tilt cx head_cy ++
  flat_map
    (fun side : Z =>
       let ex := cx + IZR side * eye_spacing in
       let base_r := psize * 0.042 in
       let er := base_r * (if (side =? 1)%Z then 1.05 else 1.0) in
       let shine_r := er * 0.38 in
       let shine_x := ex + er * 0.28 in
       let shine_y := eye_y - er * 0.30 in
       let shine2_r := er * 0.18 in
       let shine2_x := ex - er * 0.22 in
       let shine2_y := eye_y + er * 0.28 in
       [ NewPath; Arc ex eye_y (er * 1.15) 0 (2 * PI);
         SetSourceRgb EYE_WHITE; Fill;
         NewPath; Arc ex eye_y er 0 (2 * PI);
         SetSourceRgb EYE_BLACK; Fill;
         NewPath; Arc shine_x shine_y shine_r 0 (2 * PI);
         SetSourceRgba 1 1 1 0.92; Fill;
         NewPath; Arc shine2_x shine2_y shine2_r 0 (2 * PI);
         SetSourceRgba 1 1 1 0.55; Fill ])
    [(-1)%Z; 1%Z] ++
  [Restore].

Definition draw_beak (cx cy psize : R) : list op :=
  let head_cy := cy - psize * 0.22 in
  let beak_cy := head_cy + psize * 0.095 in
  let beak_w := psize * 0.042 in
  let beak_h := psize * 0.035 in
  head_tilt cx head_cy ++
  [ NewPath;
    move_to cx (beak_cy + beak_h);
    curve_to (cx - beak_w * 0.3) (beak_cy + beak_h * 0.3)
             (cx - beak_w) (beak_cy - beak_h * 0.2)
             (cx - beak_w * 0.8) (beak_cy - beak_h * 0.5);
    curve_to (cx - beak_w * 0.4) (beak_cy - beak_h * 0.9)
             (cx + beak_w * 0.4) (beak_cy - beak_h * 0.9)
             (cx + beak_w * 0.8) (beak_cy - beak_h * 0.5);
    curve_to (cx + beak_w) (beak_cy - beak_h * 0.2)
             (cx + beak_w * 0.3) (beak_cy + beak_h * 0.3)
             cx (beak_cy + beak_h);
    close_path;
    SetSource
      (LinearGradient cx (beak_cy - beak_h) cx (beak_cy + beak_h)
         [ StopRgb 0.0 ACCENT_BLUE_LIGHT; StopRgb 1.0 ACCENT_BLUE ]);
    Fill;
    Restore ].

Definition draw_cheek_blush (cx cy psize : R) : list op :=
  let head_cy := cy - psize * 0.22 in
  let blush_y := head_cy + psize * 0.04 in
  let blush_spacing := psize * 0.145 in
  let blush_r := psize * 0.035 in
  head_tilt cx head_cy ++
  flat_map
    (fun side : Z =>
       let bx := cx + IZR side * blush_spacing in
       [ SetSource
           (RadialGradient bx blush_y 0 bx blush_y blush_r
              [ StopRgba 0.0 (255 / 255) (107 / 255) (138 / 255) 0.15;
                StopRgba 0.6 (255 / 255) (107 / 255) (138 / 255) 0.08;
                StopRgba 1.0 (255 / 255) (107 / 255) (138 / 255) 0.0 ]);
         NewPath; Arc bx blush_y blush_r 0 (2 * PI); Fill ])
    [(-1)%Z; 1%Z] ++
  [Restore].

Definition draw_wings (cx cy psize : R) (shadow : bool) : list op :=
  let wing_h := psize * 0.22 in
  let wing_w := psize * 0.10 in
  let wing_y := cy + psize * 0.02 in
  flat_map
    (fun side : Z =>
       let sd := IZR side in
       let wing_x := cx + sd * psize * 0.37 in
       let angle := sd * radians 15 in
       [ Save;
         Translate wing_x (wing_y - wing_h * 0.4);
         Rotate angle;
         NewPath;
         move_to 0 (- wing_h * 0.5);
         curve_to (sd * wing_w * 0.8) (- wing_h * 0.3)
                  (sd * wing_w * 1.2) (wing_h * 0.1)
                  (sd * wing_w * 0.6) (wing_h * 0.5);
         curve_to (sd * wing_w * 0.2) (wing_h * 0.65)
                  (- sd * wing_w * 0.2) (wing_h * 0.2)
                  0 (- wing_h * 0.5);
         close_path ] ++
       (if shadow then [Fill]
        else
          [ SetSource
              (LinearGradient 0 (- wing_h * 0.5) (sd * wing_w) (wing_h * 0.5)
                 [ StopRgb 0.0 PLUMAGE_DARK; StopRgb 0.5 PLUMAGE_DARK;
                   StopRgb 1.0 PLUMAGE_HIGHLIGHT ]);
            Fill ]) ++
       [Restore])
    [(-1)%Z; 1%Z].

Definition draw_scarf (cx cy psize : R) : list op :=
  let scarf_y := cy - psize * 0.065 in
  let scarf_h := psize * 0.035 in
  let scarf_w := psize * 0.30 in
  [ NewPath;
    move_to (cx - scarf_w) (scarf_y - scarf_h);
    curve_to (cx - scarf_w * 0.5) (scarf_y - scarf_h * 1.8)
             (cx + scarf_w * 0.5) (scarf_y - scarf_h * 1.8)
             (cx + scarf_w) (scarf_y - scarf_h);
    curve_to (cx + scarf_w * 1.05) (scarf_y + scarf_h * 0.5)
             (cx + scarf_w * 0.5) (scarf_y + scarf_h * 2.5)
             (cx + scarf_w * 0.3) (scarf_y + scarf_h * 2.0);
    curve_to (cx + scarf_w * 0.65) (scarf_y + scarf_h * 4.0)
             (cx + scarf_w * 0.85) (scarf_y + scarf_h * 5.5)
             (cx + scarf_w * 0.55) (scarf_y + scarf_h * 6.5);
    curve_to (cx + scarf_w * 0.35) (scarf_y + scarf_h * 5.0)
             (cx + scarf_w * 0.45) (scarf_y + scarf_h * 3.5)
             (cx + scarf_w * 0.15) (scarf_y + scarf_h * 2.0);
    curve_to (cx - scarf_w * 0.3) (scarf_y + scarf_h * 2.8)
             (cx - scarf_w * 0.8) (scarf_y + scarf_h * 1.5)
             (cx - scarf_w) (scarf_y - scarf_h);
    close_path;
    SetSource
      (LinearGradient (cx - scarf_w) scarf_y (cx + scarf_w) scarf_y
         [ StopRgb 0.0 ACCENT_BLUE; StopRgb 0.5 ACCENT_BLUE;
           StopRgb 1.0 ACCENT_BLUE_DARK ]);
    FillPreserve;
    (let '(r, g, b) := ACCENT_BLUE_LIGHT in SetSourceRgba r g b 0.5);
    SetLineWidth (s 2);
    Stroke ].

Definition draw_feet (cx cy psize : R) : list op :=
  let body_bottom := cy + psize * 0.50 in
  let foot_w := psize * 0.065 in
  let foot_h := psize * 0.025 in
  let foot_spacing := psize * 0.08 in
  flat_map
    (fun side : Z =>
       let fx := cx + IZR side * foot_spacing in
       let fy := body_bottom in
       [NewPath] ++ kappa_oval fx fy foot_w foot_h ++
       [ SetSourceRgba (0 / 255) (122 / 255) (255 / 255) 0.7; Fill ])
    [(-1)%Z; 1%Z].

(** [draw_drop_shadow(ctx, draw_func)]; [draw_func] is given by the calls
    it makes. *)
Definition draw_drop_shadow (draw_func : list op) : list op :=
  [Save] ++
  flat_map
    (fun i : nat =>
       let offset := s (2 + INR i * 0.5) in
       [ Save; Translate 0 offset; SetSourceRgba 0 0 0 0.03 ] ++
       draw_func ++ [Restore])
    (seq 0 8) ++
  [Restore].

Definition draw_tinted_silhouette (cx cy psize : R) : list op :=
  let foot_bottom := cy + psize * 0.50 in
  let foot_w := psize * 0.065 in
  let foot_spacing := psize * 0.08 in
  let scarf_y := cy - psize * 0.065 in
  [ SetSourceRgb (1, 1, 1) ] ++
  draw_body_shape cx cy psize true ++
  draw_head cx cy psize true ++
  draw_wings cx cy psize true ++
  flat_map
    (fun side2 : Z =>
       [ NewPath;
         Arc (cx + IZR side2 * foot_spacing) foot_bottom foot_w 0 (2 * PI);
         Fill ])
    [(-1)%Z; 1%Z] ++
  [ NewPath;
    move_to (cx - psize * 0.30) scarf_y;
    curve_to (cx - psize * 0.15) (scarf_y - psize * 0.04)
             (cx + psize * 0.15) (scarf_y - psize * 0.04)
             (cx + psize * 0.30) scarf_y;
    curve_to (cx + psize * 0.32) (scarf_y + psize * 0.04)
             (cx + psize * 0.28) (scarf_y + psize * 0.12)
             (cx + psize * 0.18) (scarf_y + psize * 0.15);
    curve_to (cx + psize * 0.14) (scarf_y + psize * 0.08)
             (cx + psize * 0.08) (scarf_y + psize * 0.04)
             (cx - psize * 0.30) scarf_y;
    close_path;
    Fill ].

Definition draw_penguin_full (variant : string) : list op :=
  let cx := RENDER_SIZE / 2 in
  let cy := RENDER_SIZE / 2 + s 15 in
  let psize := s 680 in
  if String.eqb variant "tinted" then draw_tinted_silhouette cx cy psize
  else
    let shadow_func :=
      draw_body_shape cx cy psize true ++ draw_head cx cy psize true in
    draw_drop_shadow shadow_func ++
    draw_feet cx cy psize ++
    draw_body_shape cx cy psize false ++
    draw_belly cx cy psize ++
    draw_wings cx cy psize false ++
    draw_scarf cx cy psize ++
    draw_head cx cy psize false ++
    draw_face_patch cx cy psize ++
    draw_cheek_blush cx cy psize ++
    draw_eyes cx cy psize ++
    draw_beak cx cy psize.

(** The calls [generate_icon(variant)] makes on its context, before the
    surface is downsampled. *)
Definition generate_icon (variant : string) : list op :=
  [SetAntialiasBest] ++ draw_background variant ++ draw_penguin_full variant.

(** *** Reading a list of calls

    The context keeps a current source; [save] pushes the graphics state,
    source included, and [restore] pops it. *)
Inductive source :=
| Solid (r g b a : R)
| Gradient (pat : pattern).

(** The source a fresh context starts with: opaque black. *)
Definition initial_source : source := Solid 0 0 0 1.

(** The source in force at every [paint], [fill], [fill_preserve] and
    [stroke], in order. *)
Fixpoint sources_used (cur : source) (saved : list source) (ops : list op)
    : list source :=
  match ops with
  | [] => []
  | o :: rest =>
      match o with
      | SetSourceRgb (r, g, b) => sources_used (Solid r g b 1) saved rest
      | SetSourceRgba r g b a => sources_used (Solid r g b a) saved rest
      | SetSource pat => sources_used (Gradient pat) saved rest
      | Paint | Fill | FillPreserve | Stroke =>
          cur :: sources_used cur saved rest
      | Save => sources_used cur (cur :: saved) rest
      | Restore =>
          match saved with
          | top :: saved' => sources_used top saved' rest
          | [] => sources_used cur [] rest
          end
      | _ => sources_used cur saved rest
      end
  end.

(** Depth of the [save] stack after a list of calls, starting from depth
    [d]; [None] when a [restore] finds nothing saved. *)
Fixpoint save_depth (d : nat) (ops : list op) : option nat :=
  match ops with
  | [] => Some d
  | Save :: rest => save_depth (Datatypes.S d) rest
  | Restore :: rest =>
      match d with
      | O => None
      | Datatypes.S d' => save_depth d' rest
      end
  | _ :: rest => save_depth d rest
  end.

(** A call that chooses a source. *)
Definition sets_source (o : op) : bool :=
  match o with
  | SetSourceRgb _ | SetSourceRgba _ _ _ _ | SetSource _ => true
  | _ => false
  end.


End Icon.

(** ** Reading the embedding loop's output *)
Module EmbedLog.

Import Embed.

Definition is_embedded (l : line) : bool :=
  match l with EmbeddedLine _ _ => true | _ => false end.

End EmbedLog.

(** * Properties *)

(** ** The ping-pong loop *)
Section SwayLoop.
Import Timeline.
Local Open Scope Z_scope.

Lemma iterations_step step total t :
  0 < step -> t <= total ->
  iterations step total t = S (iterations step total (t + step)).
Proof.
  intros Hs Ht. unfold iterations.
  replace (total - (t + step)) with ((total - t) + (-1) * step) by ring.
  rewrite Z.div_add by lia.
  assert (0 <= (total - t) / step) by (apply Z.div_pos; lia).
  rewrite <- Z2Nat.inj_succ by lia. f_equal. lia.
Qed.

Lemma iterations_done step total t :
  0 < step -> total < t -> iterations step total t = 0%nat.
Proof.
  intros Hs Ht. unfold iterations.
  assert ((total - t) / step < 0) by (apply Z.div_lt_upper_bound; lia).
  lia.
Qed.

Lemma iterations_exact step total t :
  0 < step -> t <= total ->
  Z.of_nat (iterations step total t) = (total - t) / step + 1.
Proof.
  intros Hs Ht. unfold iterations.
  assert (0 <= (total - t) / step) by (apply Z.div_pos; lia).
  lia.
Qed.

Lemma sway_list_cons {A : Type} (mk : Z -> Z -> keyframe A) step t dir n :
  sway_list mk step t dir (S n)
  = mk t dir :: sway_list mk step (t + step) (dir * -1) n.
Proof.
  unfold sway_list. cbn [seq map].
  rewrite <- seq_shift, map_map. f_equal.
  - unfold sign_at. cbn. f_equal; ring.
  - apply map_ext. intros k. unfold sign_at.
    rewrite Nat2Z.inj_succ, Z.pow_succ_r by lia. f_equal; ring.
Qed.

(** With enough fuel the loop returns, and what it returns is known. *)
Lemma sway_loop_spec {A : Type} (mk : Z -> Z -> keyframe A) step total :
  0 < step ->
  forall fuel t dir,
    (iterations step total t < fuel)%nat ->
    sway_loop fuel mk step total t dir
    = Some (sway_list mk step t dir (iterations step total t)).
Proof.
  intros Hs. induction fuel as [|fuel IH]; intros t dir Hf; [lia|].
  cbn [sway_loop]. destruct (Z.leb_spec t total) as [Hle|Hgt].
  - rewrite iterations_step in * by assumption.
    rewrite IH by lia. now rewrite sway_list_cons.
  - now rewrite iterations_done by assumption.
Qed.

Lemma sway_list_length {A : Type} (mk : Z -> Z -> keyframe A) step t dir n :
  List.length (sway_list mk step t dir n) = n.
Proof. unfold sway_list. now rewrite length_map, length_seq. Qed.

Lemma sway_list_nth {A : Type} (mk : Z -> Z -> keyframe A) step t dir n k d :
  (k < n)%nat ->
  nth k (sway_list mk step t dir n) d
  = mk (t + Z.of_nat k * step) (sign_at dir k).
Proof.
  intros Hk. unfold sway_list.
  rewrite (nth_indep _ d (mk (t + Z.of_nat 0 * step) (sign_at dir 0)))
    by (now rewrite length_map, length_seq).
  rewrite (map_nth (fun k => mk (t + Z.of_nat k * step) (sign_at dir k))).
  now rewrite seq_nth by assumption.
Qed.

Lemma sign_at_even dir k : Nat.even k = true -> sign_at dir k = dir.
Proof.
  intros He. unfold sign_at.
  apply Nat.even_spec in He. destruct He as [m ->].
  rewrite Nat2Z.inj_mul, Z.pow_mul_r by lia.
  change ((-1) ^ Z.of_nat 2) with 1. rewrite Z.pow_1_l by lia. ring.
Qed.

Lemma sign_at_odd dir k : Nat.odd k = true -> sign_at dir k = - dir.
Proof.
  intros Ho. unfold sign_at.
  apply Nat.odd_spec in Ho. destruct Ho as [m ->].
  rewrite Nat2Z.inj_add, Nat2Z.inj_mul, Z.pow_add_r, Z.pow_mul_r by lia.
  change ((-1) ^ Z.of_nat 2) with 1. rewrite Z.pow_1_l by lia.
  change ((-1) ^ Z.of_nat 1) with (-1). ring.
Qed.
End SwayLoop.

(** ** The sway track of [generate_lottie] *)
Section SwayTrack.
Import Timeline.
Local Open Scope Z_scope.

Lemma sway_list_nth_error {A : Type} (mk : Z -> Z -> keyframe A)
    step t dir n k :
  (k < n)%nat ->
  nth_error (sway_list mk step t dir n) k
  = Some (mk (t + Z.of_nat k * step) (sign_at dir k)).
Proof.
  intros Hk. unfold sway_list.
  rewrite nth_error_map, nth_error_seq.
  destruct (Nat.ltb_spec k n); [reflexivity | lia].
Qed.

Lemma iterations_from_zero step total :
  0 < step -> 0 <= total ->
  iterations step total 0 = S (Z.to_nat (total / step)).
Proof.
  intros Hs Ht. unfold iterations. rewrite Z.sub_0_r.
  assert (0 <= total / step) by (apply Z.div_pos; lia).
  rewrite <- Z2Nat.inj_succ by lia. f_equal.
Qed.

(** With enough fuel the position loop returns the alternating keyframes
    followed by the closing keyframe. *)
Lemma sway_position_keyframes_eq fuel sv A Hc T :
  0 < Hc -> 0 <= T -> (iterations Hc T 0 < fuel)%nat ->
  sway_position_keyframes fuel sv A Hc T
  = Some (sway_list
            (fun t d => MkKf t (vx sv + A * inject_Z d, vy sv, vz sv)%Q
                          (Some smooth_in3) (Some smooth_out3))
            Hc 0 1 (S (Z.to_nat (T / Hc)))
          ++ [MkKf T (vx sv + A, vy sv, vz sv)%Q None None]).
Proof.
  intros Hs Ht Hf. unfold sway_position_keyframes.
  rewrite sway_loop_spec by assumption.
  now rewrite iterations_from_zero by assumption.
Qed.
End SwayTrack.

(** C2, as the spec words it, fails on the shipped constants: the loop
    runs [210 / 45 + 1 = 5] times and one keyframe is appended, so the
    track has 6 keyframes where [ceil(T/H) + 2] is 7. *)
Lemma sway_count_is_not_ceil_plus_two :
  exists kfs,
    Timeline.sway_position_keyframes 10
      (Timeline.half Timeline.W, Timeline.half Timeline.H, 0%Q) 2.0%Q 45 210
    = Some kfs /\
    Z.of_nat (List.length kfs) <> (Timeline.ceil_div 210 45 + 2)%Z.
Proof.
  eexists. split; [vm_compute; reflexivity|]. vm_compute. discriminate.
Qed.

(** C2 (amended): for a half-cycle [Hc > 0] and a duration [T >= 0] the
    sway generator returns [floor(T/Hc) + 2] keyframes; keyframe [k], for
    [k <= floor(T/Hc)], sits at frame [k * Hc] and holds the static
    position moved by [A * (-1)^k]; the last keyframe sits at [T] and holds
    the static position moved by [+A], the start value, written as a
    constant.  With [A = 2], [Hc = 45], [T = 210] around [x = 200] these are
    the frames 0, 45, 90, 135, 180 with 202, 198, 202, 198, 202 and the
    closing frame 210 with 202. *)
Theorem sway_track_shape :
  (forall fuel sv A Hc T,
      (0 < Hc)%Z -> (0 <= T)%Z ->
      (Timeline.iterations Hc T 0 < fuel)%nat ->
      exists kfs,
        Timeline.sway_position_keyframes fuel sv A Hc T = Some kfs /\
        Z.of_nat (List.length kfs) = (T / Hc + 2)%Z /\
        (forall k, (k <= Z.to_nat (T / Hc))%nat ->
           nth_error kfs k
           = Some (Timeline.MkKf (Z.of_nat k * Hc)%Z
                     (Timeline.vx sv + A * inject_Z ((-1) ^ Z.of_nat k),
                      Timeline.vy sv, Timeline.vz sv)%Q
                     (Some Timeline.smooth_in3) (Some Timeline.smooth_out3))) /\
        nth_error kfs (S (Z.to_nat (T / Hc)))
        = Some (Timeline.MkKf T
                  (Timeline.vx sv + A, Timeline.vy sv, Timeline.vz sv)%Q
                  None None)) /\
  (forall fuel, (5 < fuel)%nat ->
     option_map Timeline.times_and_x
       (Timeline.sway_position_keyframes fuel
          (Timeline.half Timeline.W, Timeline.half Timeline.H, 0%Q) 2.0%Q
          45 Timeline.TOTAL_FRAMES)
     = Some [(0%Z, 202%Q); (45%Z, 198%Q); (90%Z, 202%Q); (135%Z, 198%Q);
             (180%Z, 202%Q); (210%Z, 202%Q)]).
Proof.
  split.
  - intros fuel sv A Hc T Hs Ht Hf.
    rewrite sway_position_keyframes_eq by assumption.
    eexists. split; [reflexivity|].
    assert (0 <= T / Hc)%Z by (apply Z.div_pos; lia).
    split; [|split].
    + rewrite length_app, sway_list_length. cbn [List.length]. lia.
    + intros k Hk. rewrite nth_error_app1 by (rewrite sway_list_length; lia).
      rewrite sway_list_nth_error by lia.
      unfold Timeline.sign_at. rewrite Z.mul_1_l, Z.add_0_l. reflexivity.
    + rewrite nth_error_app2 by (rewrite sway_list_length; lia).
      rewrite sway_list_length, Nat.sub_diag. reflexivity.
  - intros fuel Hf.
    rewrite sway_position_keyframes_eq by (vm_compute; congruence || lia).
    vm_compute. reflexivity.
Qed.

(** The amended C2 at the shipped constants and seven units of fuel. *)
Lemma sway_track_shape_witness :
  exists kfs,
    Timeline.sway_position_keyframes 7 (200, 230, 0)%Q 2.0%Q 45 210
    = Some kfs /\
    Z.of_nat (List.length kfs) = (210 / 45 + 2)%Z.
Proof.
  destruct (proj1 sway_track_shape 7%nat (200, 230, 0)%Q 2.0%Q 45%Z 210%Z)
    as [kfs [E [L _]]].
  - reflexivity.
  - discriminate.
  - vm_compute. lia.
  - exists kfs. split; [exact E | exact L].
Defined.



(** ** Fuel does not matter once the loops return *)
Section Fuel.
Import Timeline.
Local Open Scope Z_scope.

Lemma sway_loop_fuel {A : Type} (mk : Z -> Z -> keyframe A)
    step total t dir f1 f2 :
  0 < step ->
  (iterations step total t < f1)%nat ->
  (iterations step total t < f2)%nat ->
  sway_loop f1 mk step total t dir = sway_loop f2 mk step total t dir.
Proof. intros. now rewrite !sway_loop_spec by assumption. Qed.

Ltac enough_fuel :=
  first [ reflexivity
        | match goal with
          | |- (iterations ?s ?tot ?t < _)%nat =>
              let n := eval vm_compute in (iterations s tot t) in
              change (iterations s tot t) with n; lia
          end ].

Lemma build_body_sway_layer_fuel fuel :
  (5 < fuel)%nat -> build_body_sway_layer fuel = build_body_sway_layer 6.
Proof.
  intros Hf. unfold build_body_sway_layer.
  now rewrite !(sway_loop_fuel _ 45 TOTAL_FRAMES 0 1 fuel 6) by enough_fuel.
Qed.

Lemma build_scarf_counter_sway_fuel fuel :
  (5 < fuel)%nat ->
  build_scarf_counter_sway fuel = build_scarf_counter_sway 6.
Proof.
  intros Hf. unfold build_scarf_counter_sway.
  now rewrite (sway_loop_fuel _ 45 TOTAL_FRAMES 8 (-1) fuel 6)
    by enough_fuel.
Qed.

Lemma add_sway_fuel fuel ls :
  (5 < fuel)%nat -> add_sway fuel ls = add_sway 6 ls.
Proof.
  intros Hf. induction ls as [|l rest IH]; [reflexivity|].
  cbn [add_sway]. rewrite IH.
  destruct (tr_p (ks l)) as [sv|kfs]; [|reflexivity].
  unfold sway_position_keyframes.
  now rewrite (sway_loop_fuel _ 45 TOTAL_FRAMES 0 1 fuel 6) by enough_fuel.
Qed.

Lemma generate_lottie_fuel fuel :
  (5 < fuel)%nat -> generate_lottie fuel = generate_lottie 6.
Proof.
  intros Hf. unfold generate_lottie.
  rewrite build_body_sway_layer_fuel, build_scarf_counter_sway_fuel
    by assumption.
  destruct (build_body_sway_layer 6); [|reflexivity].
  destruct (build_scarf_counter_sway 6); [|reflexivity].
  now rewrite add_sway_fuel by assumption.
Qed.
End Fuel.

(** ** The loop seam *)
Section LoopSeam.
Import Timeline.
Variable ease : option handle -> option handle -> Q -> Q.

Ltac close_bounds :=
  repeat split; cbv; let Hcmp := fresh "Hcmp" in intro Hcmp; discriminate Hcmp.

(** Both tracks of [build_body_sway_layer] take the same value at frame 0
    and at frame [TOTAL_FRAMES]. *)
Lemma body_sway_tracks_loop fuel :
  (5 < fuel)%nat ->
  exists tr pos rot a b,
    build_body_sway_layer fuel = Some tr /\
    tr_p tr = Animated pos /\ tr_r tr = Animated rot /\
    track_loops ease seam_tolerance pos /\
    value_at ease rot 0%Z = Some a /\
    value_at ease rot TOTAL_FRAMES = Some b /\
    (Qabs (a - b) <= seam_tolerance)%Q.
Proof.
  intros Hf. rewrite build_body_sway_layer_fuel by assumption.
  do 5 eexists. split; [cbv; reflexivity|].
  split; [reflexivity|]. split; [reflexivity|].
  split.
  - do 2 eexists. split; [cbv; reflexivity|]. split; [cbv; reflexivity|].
    close_bounds.
  - split; [cbv; reflexivity|]. split; [cbv; reflexivity|].
    cbv. intro Hcmp. discriminate Hcmp.
Qed.

(** In the generated document every layer but the scarf has a position
    track and a scale property that loop. *)
Lemma layers_other_than_scarf_loop fuel :
  (5 < fuel)%nat ->
  exists doc,
    generate_lottie fuel = Some doc /\
    List.length (layers doc) = 12%nat /\
    Forall (fun l => nm l = "Scarf"%string \/
                     (prop_loops ease seam_tolerance (tr_p (ks l)) /\
                      prop_loops ease seam_tolerance (tr_s (ks l))))
           (layers doc).
Proof.
  intros Hf. rewrite generate_lottie_fuel by assumption.
  eexists. split; [cbv; reflexivity|]. split; [reflexivity|].
  cbn [layers].
  repeat (apply Forall_cons || apply Forall_nil);
    try (left; reflexivity);
    right; (split; cbn [prop_loops ks tr_p tr_s]; [|try exact I]);
    do 2 eexists; (split; [cbv; reflexivity|]);
    (split; [cbv; reflexivity|]); close_bounds.
Qed.
End LoopSeam.

(** C1 at the scarf: in the generated document the scarf's position track
    shows [x = 198.5] at frame 0, the value of its first keyframe at
    frame 8, and [x = 200] at frame [TOTAL_FRAMES], the value of its
    closing keyframe; the two differ by 1.5, far more than 0.001. *)
Theorem scarf_track_breaks_loop_seam :
  forall (ease : option Timeline.handle -> option Timeline.handle -> Q -> Q)
         (fuel : nat),
    (5 < fuel)%nat ->
    exists doc scarf track a b,
      Timeline.generate_lottie fuel = Some doc /\
      Timeline.layer_named "Scarf" doc = Some scarf /\
      Timeline.tr_p (Timeline.ks scarf) = Timeline.Animated track /\
      option_map Timeline.kf_t (hd_error track) = Some 8%Z /\
      Timeline.value_at ease track 0%Z = Some a /\
      Timeline.value_at ease track Timeline.TOTAL_FRAMES = Some b /\
      (Timeline.vx a == 198.5)%Q /\ (Timeline.vx b == 200)%Q /\
      ~ Timeline.track_loops ease Timeline.seam_tolerance track.
Proof.
  intros ease fuel Hf. rewrite generate_lottie_fuel by assumption.
  do 5 eexists. split; [cbv; reflexivity|].
  split; [cbv; reflexivity|]. split; [reflexivity|].
  split; [reflexivity|].
  split; [cbv; reflexivity|]. split; [cbv; reflexivity|].
  split; [reflexivity|]. split; [reflexivity|].
  intros (a & b & Ha & Hb & Hx & _).
  cbv in Ha, Hb. injection Ha as <-. injection Hb as <-.
  cbv in Hx. apply Hx. reflexivity.
Qed.

(** The scarf track of C1 evaluated with linear easing and six units of
    fuel. *)
Lemma scarf_track_breaks_loop_seam_witness :
  exists doc scarf track,
    Timeline.generate_lottie 6 = Some doc /\
    Timeline.layer_named "Scarf" doc = Some scarf /\
    Timeline.tr_p (Timeline.ks scarf) = Timeline.Animated track /\
    ~ Timeline.track_loops (fun _ _ u => u) Timeline.seam_tolerance track.
Proof.
  destruct (scarf_track_breaks_loop_seam (fun _ _ u => u) 6)
    as (doc & scarf & track & a & b & E & L & P & _ & _ & _ & _ & _ & N).
  - lia.
  - exists doc, scarf, track. repeat split; assumption.
Defined.

(** ** Blink *)
Section Blink.
Import Timeline.
Local Open Scope Z_scope.
Variable ease : option handle -> option handle -> Q -> Q.

Ltac split_frames :=
  repeat match goal with
         | |- context [(?a <? ?b)] =>
             destruct (Z.ltb_spec a b); try lia
         | |- context [(?a <=? ?b)] =>
             destruct (Z.leb_spec a b); try lia
         end.

Ltac eval_track :=
  unfold eye_scale_keyframes, value_at, open_scale, closed_scale;
  change TOTAL_FRAMES with 210;
  cbn [value_from kf_t kf_s kf_i kf_o Z.sub Z.add Z.opp Z.pos_sub
       Pos.add Pos.succ Pos.pred_double Z.double Z.succ_double
       Z.pred_double Pos.add_carry].

Lemma blend_same_Q (e a : Q) : (blend e a a == a)%Q.
Proof. unfold blend, blend_Q. ring. Qed.

Lemma blend_open e : vec3_eq (blend e open_scale open_scale) open_scale.
Proof.
  unfold vec3_eq, blend, blend_vec3, open_scale, vx, vy, vz; cbn [fst snd].
  repeat split; apply blend_same_Q.
Qed.

Lemma vec3_eq_refl a : vec3_eq a a.
Proof. unfold vec3_eq. repeat split; reflexivity. Qed.

(** Open wherever the track is between two open keyframes. *)
Lemma blink_track_open t :
  0 <= t <= 98 \/ 104 <= t <= 193 \/ 199 <= t ->
  exists s, value_at ease (eye_scale_keyframes 100 195) t = Some s /\
            vec3_eq s open_scale.
Proof.
  intros Ht. eexists. split; [reflexivity|].
  eval_track. split_frames;
    first [ apply vec3_eq_refl | apply blend_open ].
Qed.

(** Closed at the blink frame and one frame later. *)
Lemma blink_track_closed t :
  t = 100 \/ t = 101 \/ t = 195 \/ t = 196 ->
  value_at ease (eye_scale_keyframes 100 195) t = Some closed_scale.
Proof.
  intros [-> | [-> | [-> | ->]]]; reflexivity.
Qed.

(** The first and third components never leave 100. *)
Lemma blink_track_y_only t s :
  value_at ease (eye_scale_keyframes 100 195) t = Some s ->
  (vx s == 100)%Q /\ (vz s == 100)%Q.
Proof.
  intros Hs. injection Hs as <-.
  eval_track. split_frames;
    unfold vx, vz, blend, blend_vec3; cbn [fst snd];
    split; first [ reflexivity | apply blend_same_Q ].
Qed.
End Blink.

(** C6: each eye layer carries its own scale track, the same keyframes for
    either side although the right pupil is 5% larger; the track is open
    ([100, 100, 100]) from frame 0 to two frames before each blink frame,
    holds [100, 15, 100] at the blink frame and one frame later, is back at
    exactly [100, 100, 100] four frames after the blink frame, and only its
    second component ever moves.  For the blink at frame 100 the scale is
    open again at frame 104. *)
Theorem eye_blink_sequence :
  forall (ease : option Timeline.handle -> option Timeline.handle -> Q -> Q),
    let track := Timeline.eye_scale_keyframes 100 195 in
    (forall side name,
        Timeline.tr_s (Timeline.ks (Timeline.build_eye_layer side name))
        = Timeline.Animated track) /\
    (forall fuel, (5 < fuel)%nat ->
       exists doc left_eye right_eye,
         Timeline.generate_lottie fuel = Some doc /\
         Timeline.layer_named "Left Eye" doc = Some left_eye /\
         Timeline.layer_named "Right Eye" doc = Some right_eye /\
         Timeline.tr_s (Timeline.ks left_eye) = Timeline.Animated track /\
         Timeline.tr_s (Timeline.ks right_eye) = Timeline.Animated track) /\
    (Timeline.eye_radius 1 == 1.05 * Timeline.eye_radius (-1))%Q /\
    map (fun k => (Timeline.kf_t k, Timeline.kf_s k)) track
    = [ (0%Z, (100, 100, 100)%Q); (98%Z, (100, 100, 100)%Q);
        (100%Z, (100, 15, 100)%Q); (101%Z, (100, 15, 100)%Q);
        (104%Z, (100, 100, 100)%Q); (193%Z, (100, 100, 100)%Q);
        (195%Z, (100, 15, 100)%Q); (196%Z, (100, 15, 100)%Q);
        (199%Z, (100, 100, 100)%Q); (210%Z, (100, 100, 100)%Q) ] /\
    (forall t, (0 <= t <= 98 \/ 104 <= t <= 193 \/ 199 <= t)%Z ->
       exists s, Timeline.value_at ease track t = Some s /\
                 Timeline.vec3_eq s (100, 100, 100)%Q) /\
    (forall t, (t = 100 \/ t = 101 \/ t = 195 \/ t = 196)%Z ->
       Timeline.value_at ease track t = Some (100, 15, 100)%Q) /\
    Timeline.value_at ease track 104 = Some (100, 100, 100)%Q /\
    Timeline.value_at ease track 199 = Some (100, 100, 100)%Q /\
    (forall t s, Timeline.value_at ease track t = Some s ->
       (Timeline.vx s == 100)%Q /\ (Timeline.vz s == 100)%Q).
Proof.
  intros ease track. subst track.
  split; [reflexivity|].
  split.
  { intros fuel Hf. rewrite generate_lottie_fuel by assumption.
    do 3 eexists. split; [cbv; reflexivity|].
    split; [cbv; reflexivity|]. split; [cbv; reflexivity|].
    split; reflexivity. }
  split; [reflexivity|].
  split; [reflexivity|].
  split; [apply blink_track_open|].
  split; [apply blink_track_closed|].
  split; [reflexivity|]. split; [reflexivity|].
  apply blink_track_y_only.
Qed.

(** C6 read at frame 50 with linear easing: the eye is open. *)
Lemma eye_blink_sequence_witness :
  exists s,
    Timeline.value_at (fun _ _ u => u) (Timeline.eye_scale_keyframes 100 195)
      50 = Some s /\
    Timeline.vec3_eq s (100, 100, 100)%Q.
Proof.
  destruct (eye_blink_sequence (fun _ _ u => u))
    as (_ & _ & _ & _ & Hopen & _).
  apply (Hopen 50%Z). left. lia.
Defined.

(** ** Bezier segments stay inside the hull of their control points *)
Section Hull.
Import PathBuilder Curve.
Local Open Scope R_scope.

Lemma bern_bounds lo hi a b c d u :
  0 <= u <= 1 ->
  lo <= a <= hi -> lo <= b <= hi -> lo <= c <= hi -> lo <= d <= hi ->
  lo <= bern a b c d u <= hi.
Proof.
  intros Hu Ha Hb Hc Hd. unfold bern.
  set (b0 := (1 - u) ^ 3). set (b1 := 3 * (1 - u) ^ 2 * u).
  set (b2 := 3 * (1 - u) * u ^ 2). set (b3 := u ^ 3).
  assert (H0 : 0 <= b0) by (unfold b0; apply pow_le; lra).
  assert (H1 : 0 <= b1).
  { unfold b1. apply Rmult_le_pos; [|lra].
    apply Rmult_le_pos; [lra|]. apply pow_le; lra. }
  assert (H2 : 0 <= b2).
  { unfold b2. apply Rmult_le_pos; [|apply pow_le; lra].
    apply Rmult_le_pos; lra. }
  assert (H3 : 0 <= b3) by (unfold b3; apply pow_le; lra).
  assert (Hsum : b0 + b1 + b2 + b3 = 1) by (unfold b0, b1, b2, b3; ring).
  assert (La : b0 * lo <= b0 * a <= b0 * hi)
    by (split; apply Rmult_le_compat_l; lra).
  assert (Lb : b1 * lo <= b1 * b <= b1 * hi)
    by (split; apply Rmult_le_compat_l; lra).
  assert (Lc : b2 * lo <= b2 * c <= b2 * hi)
    by (split; apply Rmult_le_compat_l; lra).
  assert (Ld : b3 * lo <= b3 * d <= b3 * hi)
    by (split; apply Rmult_le_compat_l; lra).
  assert (Elo : b0 * lo + b1 * lo + b2 * lo + b3 * lo = lo)
    by (rewrite <- !Rmult_plus_distr_r, Hsum; ring).
  assert (Ehi : b0 * hi + b1 * hi + b2 * hi + b3 * hi = hi)
    by (rewrite <- !Rmult_plus_distr_r, Hsum; ring).
  split; lra.
Qed.

Lemma bezier_start sg : bezier sg 0 = s0 sg.
Proof.
  unfold bezier, bern. destruct sg as [[x0 y0] p1 p2 p3]; cbn [s0 s1 s2 s3 fst snd].
  f_equal; ring.
Qed.

Lemma bezier_end sg : bezier sg 1 = s3 sg.
Proof.
  unfold bezier, bern. destruct sg as [p0 p1 p2 [x3 y3]]; cbn [s0 s1 s2 s3 fst snd].
  f_equal; ring.
Qed.

Lemma on_curve_start segs sg : In sg segs -> on_curve segs (s0 sg).
Proof.
  intros Hin. exists sg, 0. repeat split; [assumption|lra|lra|].
  apply bezier_start.
Qed.

Lemma on_curve_end segs sg : In sg segs -> on_curve segs (s3 sg).
Proof.
  intros Hin. exists sg, 1. repeat split; [assumption|lra|lra|].
  apply bezier_end.
Qed.
End Hull.

(** ** The ellipse *)
Section Ellipse.
Import PathBuilder Curve.
Local Open Scope R_scope.

Lemma ellipse_segments cx cy rx ry :
  segments_of_path (ellipse_bezier_path cx cy rx ry)
  = [ MkSeg (cx, cy - ry) (cx + rx * KAPPA, cy - ry + 0)
        (cx + rx + 0, cy + - ry * KAPPA) (cx + rx, cy);
      MkSeg (cx + rx, cy) (cx + rx + 0, cy + ry * KAPPA)
        (cx + rx * KAPPA, cy + ry + 0) (cx, cy + ry);
      MkSeg (cx, cy + ry) (cx + - rx * KAPPA, cy + ry + 0)
        (cx - rx + 0, cy + ry * KAPPA) (cx - rx, cy);
      MkSeg (cx - rx, cy) (cx - rx + 0, cy + - ry * KAPPA)
        (cx + - rx * KAPPA, cy - ry + 0) (cx, cy - ry) ].
Proof. reflexivity. Qed.


(** The curve stays in the box spanned by the radii. *)
Lemma ellipse_in_box cx cy rx ry pt :
  0 <= rx -> 0 <= ry ->
  on_curve (segments_of_path (ellipse_bezier_path cx cy rx ry)) pt ->
  cx - rx <= fst pt <= cx + rx /\ cy - ry <= snd pt <= cy + ry.
Proof.
  intros Hrx Hry (sg & u & Hin & Hu & <-).
  rewrite ellipse_segments in Hin. cbn [In] in Hin.
  unfold KAPPA in Hin.
  destruct Hin as [<- | [<- | [<- | [<- | []]]]];
    unfold bezier; cbn [s0 s1 s2 s3 fst snd];
    split; apply bern_bounds; try assumption; lra.
Qed.


End Ellipse.



(** ** The body outline in the three generators *)
Section Body.
Import PathBuilder Curve.
Local Open Scope R_scope.

(** The markup body is the icon body drawn at the artboard's centre and
    reference size. *)
Lemma body_path_is_icon_body :
  segments_of_cmds Vector.body_path
  = segments_of_cmds (Vector.draw_body_shape CX CY PSIZE).
Proof.
  cbv beta zeta delta
    [segments_of_cmds Vector.body_path Vector.draw_body_shape p].
  cbn [segments_from]. repeat (f_equal; try lra).
Qed.

Lemma egg_segments cx cy w h :
  segments_of_path (egg_shape_path cx cy w h)
  = [ MkSeg (cx, cy - h * 0.85)
        (cx + w * 0.45, cy - h * 0.85 + 0)
        (cx + w * 0.95 + 0, cy - h * 0.1 + - h * 0.45)
        (cx + w * 0.95, cy - h * 0.1);
      MkSeg (cx + w * 0.95, cy - h * 0.1)
        (cx + w * 0.95 + 0, cy - h * 0.1 + h * 0.45)
        (cx + w * 0.75 + w * 0.25, cy + h * 0.7 + h * 0.15)
        (cx + w * 0.75, cy + h * 0.7);
      MkSeg (cx + w * 0.75, cy + h * 0.7)
        (cx + w * 0.75 + - w * 0.25, cy + h * 0.7 + h * 0.15)
        (cx + w * 0.4, cy + h * 0.95 + 0)
        (cx, cy + h * 0.95);
      MkSeg (cx, cy + h * 0.95)
        (cx + - w * 0.4, cy + h * 0.95 + 0)
        (cx - w * 0.75 + - w * 0.25, cy + h * 0.7 + h * 0.15)
        (cx - w * 0.75, cy + h * 0.7);
      MkSeg (cx - w * 0.75, cy + h * 0.7)
        (cx - w * 0.75 + w * 0.25, cy + h * 0.7 + h * 0.15)
        (cx - w * 0.95 + 0, cy - h * 0.1 + h * 0.45)
        (cx - w * 0.95, cy - h * 0.1);
      MkSeg (cx - w * 0.95, cy - h * 0.1)
        (cx - w * 0.95 + 0, cy - h * 0.1 + - h * 0.45)
        (cx + - w * 0.45, cy - h * 0.85 + 0)
        (cx, cy - h * 0.85) ].
Proof. reflexivity. Qed.

(** On the segment from the right upper to the right lower vertex the
    abscissa exceeds [0.95] of the half-width by less than a hundredth. *)
Lemma egg_flank_bound u :
  0 <= u <= 1 -> bern 0.95 0.95 1 0.75 u <= 0.96.
Proof.
  intros Hu. unfold bern.
  assert (Hsq : 0 <= (u - 2 / 7) ^ 2 * (7 * u + 1)).
  { apply Rmult_le_pos; [apply pow2_ge_0 | lra]. }
  nra.
Qed.

(** No point of the egg outline lies further right than [0.96] of the
    half-width. *)
Lemma egg_right_extent cx cy w h pt :
  0 <= w ->
  on_curve (segments_of_path (egg_shape_path cx cy w h)) pt ->
  fst pt <= cx + 0.96 * w.
Proof.
  intros Hw (sg & u & Hin & Hu & <-).
  rewrite egg_segments in Hin. cbn [In] in Hin.
  destruct Hin as [<- | [<- | [<- | [<- | [<- | [<- | []]]]]]];
    unfold bezier; cbn [s0 s1 s2 s3 fst snd].
  2: { replace (bern (cx + w * 0.95) (cx + w * 0.95 + 0)
                  (cx + w * 0.75 + w * 0.25) (cx + w * 0.75) u)
         with (cx + w * bern 0.95 0.95 1 0.75 u)
         by (unfold bern; nra).
       pose proof (egg_flank_bound u Hu) as Hb.
       pose proof (Rmult_le_compat_l w _ _ Hw Hb). lra. }
  all: apply (bern_bounds (cx - w) (cx + 0.96 * w)); try assumption; lra.
Qed.
End Body.

(** C3 at the body: the markup generator draws the icon generator's
    four-segment outline, whose right flank reaches the abscissa
    [CX + 0.97605 * body_w], about 346.02; the animation generator's
    six-vertex egg never goes beyond [CX + 0.96 * body_w], about 343.62.
    The two outlines are different curves. *)
Theorem body_outline_differs_between_backends :
  let drawn := Curve.segments_of_cmds Vector.body_path in
  let egg := Curve.segments_of_path PathBuilder.lottie_body_path in
  drawn = Curve.segments_of_cmds
            (Vector.draw_body_shape PathBuilder.CX PathBuilder.CY
               PathBuilder.PSIZE) /\
  List.length drawn = 4%nat /\ List.length egg = 6%nat /\
  (exists pt, Curve.on_curve drawn pt /\
              (fst pt > PathBuilder.CX + 0.97 * PathBuilder.p 0.44)%R /\
              ~ Curve.on_curve egg pt) /\
  ~ Curve.same_curve drawn egg.
Proof.
  intros drawn egg.
  assert (Hpt : exists pt, Curve.on_curve drawn pt /\
              (fst pt > PathBuilder.CX + 0.97 * PathBuilder.p 0.44)%R /\
              ~ Curve.on_curve egg pt).
  { set (sg := hd (Curve.MkSeg (0, 0) (0, 0) (0, 0) (0, 0))%R drawn).
    exists (Curve.bezier sg 0.9%R).
    assert (Hx : (fst (Curve.bezier sg 0.9)
                  > PathBuilder.CX + 0.97 * PathBuilder.p 0.44)%R).
    { cbv [sg drawn hd Curve.segments_of_cmds Vector.body_path
           Curve.segments_from Curve.bezier Curve.bern fst snd
           Curve.s0 Curve.s1 Curve.s2 Curve.s3
           PathBuilder.p PathBuilder.CX PathBuilder.W PathBuilder.PSIZE].
      cbn [pow]. lra. }
    split; [|split; [exact Hx|]].
    - exists sg, 0.9%R. split; [left; reflexivity|]. split; [lra|reflexivity].
    - intros Hon. unfold egg, PathBuilder.lottie_body_path in Hon.
      apply egg_right_extent in Hon;
        [|unfold PathBuilder.p, PathBuilder.PSIZE; lra].
      unfold PathBuilder.p, PathBuilder.PSIZE, PathBuilder.CX, PathBuilder.W
        in *. lra. }
  split; [apply body_path_is_icon_body|].
  split; [reflexivity|]. split; [reflexivity|].
  split; [exact Hpt|].
  destruct Hpt as (pt & Hon & _ & Hoff).
  intros Hsame. apply Hoff, Hsame, Hon.
Qed.

(** ** Rotation *)
Section Rotation.
Import PathBuilder Curve.
Local Open Scope R_scope.

Lemma svg_rot_is_lottie_rot rad ox oy x y :
  Vector.rot rad ox oy x y = rot rad ox oy x y.
Proof. reflexivity. Qed.

Lemma wing_path_is_rotated_local cx cy side wing_w wing_h angle_deg :
  wing_path cx cy side wing_w wing_h angle_deg
  = rotate_path (radians (IZR side * angle_deg))
      (cx + IZR side * p 0.37) (cy + p 0.02 - wing_h * 0.4)
      (wing_local side wing_w wing_h).
Proof. reflexivity. Qed.

Lemma rot_t_zero x y : rot_t 0 x y = (x, y).
Proof. unfold rot_t. rewrite cos_0, sin_0. f_equal; ring. Qed.

Lemma rot_zero ox oy x y : rot 0 ox oy x y = (x + ox, y + oy).
Proof. unfold rot. rewrite cos_0, sin_0. f_equal; ring. Qed.

Lemma rot_t_compose a b x y :
  rot_t a (fst (rot_t b x y)) (snd (rot_t b x y)) = rot_t (a + b) x y.
Proof.
  unfold rot_t; cbn [fst snd]. rewrite cos_plus, sin_plus. f_equal; ring.
Qed.

Lemma rot_after_rot_t a b ox oy x y :
  rot a ox oy (fst (rot_t b x y)) (snd (rot_t b x y)) = rot (a + b) ox oy x y.
Proof.
  unfold rot, rot_t; cbn [fst snd]. rewrite cos_plus, sin_plus. f_equal; ring.
Qed.

Lemma about_pivot_zero ox oy q : about_pivot 0 ox oy q = q.
Proof.
  unfold about_pivot. rewrite rot_zero. destruct q as [x y]; cbn [fst snd].
  f_equal; ring.
Qed.

Lemma about_pivot_compose a b ox oy q :
  about_pivot a ox oy (about_pivot b ox oy q) = about_pivot (a + b) ox oy q.
Proof.
  unfold about_pivot, rot; cbn [fst snd]. rewrite cos_plus, sin_plus.
  f_equal; ring.
Qed.

Lemma rot_t_norm2 a x y : norm2 (rot_t a x y) = norm2 (x, y).
Proof.
  unfold norm2, rot_t; cbn [fst snd].
  pose proof (sin2_cos2 a) as Hsc. unfold Rsqr in Hsc.
  replace ((x * cos a - y * sin a) * (x * cos a - y * sin a)
           + (x * sin a + y * cos a) * (x * sin a + y * cos a))
    with ((x * x + y * y) * (sin a * sin a + cos a * cos a)) by ring.
  rewrite Hsc. ring.
Qed.

(** [rot] keeps the distance between any two points. *)
Lemma rot_distance a ox oy x1 y1 x2 y2 :
  norm2 (fst (rot a ox oy x1 y1) - fst (rot a ox oy x2 y2),
         snd (rot a ox oy x1 y1) - snd (rot a ox oy x2 y2))
  = norm2 (x1 - x2, y1 - y2).
Proof.
  rewrite <- (rot_t_norm2 a (x1 - x2) (y1 - y2)).
  unfold rot, rot_t, norm2; cbn [fst snd]. ring.
Qed.

Lemma combine_map {A B A' B' : Type} (f : A -> A') (g : B -> B') l l' :
  combine (map f l) (map g l')
  = map (fun ab => (f (fst ab), g (snd ab))) (combine l l').
Proof.
  revert l'. induction l as [|x l IH]; intros [|y l']; cbn; try reflexivity.
  now rewrite IH.
Qed.
End Rotation.

(** ** Rotated paths *)
Section RotatedPath.
Import PathBuilder Curve.
Local Open Scope R_scope.
Variables rad ox oy : R.

Lemma knots_rotate_path pa :
  knots (rotate_path rad ox oy pa) = map (rot_knot rad ox oy) (knots pa).
Proof.
  unfold knots, rotate_path; cbn [vertices in_tangents out_tangents].
  rewrite combine_map, combine_map. apply map_ext.
  intros [[v i] o]. reflexivity.
Qed.

Lemma join_rot_knot a b :
  join (rot_knot rad ox oy a) (rot_knot rad ox oy b)
  = rot_seg rad ox oy (join a b).
Proof.
  destruct a as [[[vx vy] [ix iy]] [ax ay]].
  destruct b as [[[wx wy] [jx jy]] [bx by_]].
  unfold join, rot_knot, rot_seg, padd, rot, rot_t;
    cbn [fst snd s0 s1 s2 s3].
  f_equal; f_equal; ring.
Qed.

Lemma chain_rot_knot first prev rest close :
  chain (rot_knot rad ox oy first) (rot_knot rad ox oy prev)
    (map (rot_knot rad ox oy) rest) close
  = map (rot_seg rad ox oy) (chain first prev rest close).
Proof.
  revert prev. induction rest as [|k rest IH]; intros prev; cbn [chain map].
  - destruct close; cbn [map]; [now rewrite join_rot_knot | reflexivity].
  - now rewrite join_rot_knot, IH.
Qed.

Lemma segments_rotate_path pa :
  segments_of_path (rotate_path rad ox oy pa)
  = map (rot_seg rad ox oy) (segments_of_path pa).
Proof.
  unfold segments_of_path. rewrite knots_rotate_path.
  destruct (knots pa) as [|k rest]; [reflexivity|].
  cbn [map]. apply chain_rot_knot.
Qed.

Lemma velocity_rot_seg sg u :
  velocity (rot_seg rad ox oy sg) u
  = rot_t rad (fst (velocity sg u)) (snd (velocity sg u)).
Proof.
  unfold velocity, rot_seg, rot, rot_t, dbern; cbn [fst snd s0 s1 s2 s3].
  f_equal; ring.
Qed.

Lemma speed_rot_seg sg u : speed (rot_seg rad ox oy sg) u = speed sg u.
Proof.
  unfold speed, plen. rewrite velocity_rot_seg, rot_t_norm2.
  now destruct (velocity sg u).
Qed.

Lemma seg_length_rot_seg sg : seg_length (rot_seg rad ox oy sg) = seg_length sg.
Proof.
  unfold seg_length. apply RiemannInt_P18; [lra|].
  intros u _. apply speed_rot_seg.
Qed.

Lemma path_length_rot_seg segs :
  path_length (map (rot_seg rad ox oy) segs) = path_length segs.
Proof.
  induction segs as [|sg segs IH]; [reflexivity|].
  cbn [map path_length fold_right].
  fold (path_length (map (rot_seg rad ox oy) segs)). fold (path_length segs).
  now rewrite seg_length_rot_seg, IH.
Qed.
End RotatedPath.

(** C7, as the spec words it, fails for [rot]: its argument is a point
    relative to the pivot and its result a point of the artboard, so at
    angle zero the right wing's pivot (325.8, 216.88) turns the local
    point (0, 0) into the pivot itself, and applying [rot] twice is not
    [rot] with the summed angle. *)
Lemma rot_at_zero_angle_is_not_identity :
  PathBuilder.rot 0 325.8 216.88 0 0 <> (0, 0)%R /\
  PathBuilder.rot 0 325.8 216.88
    (fst (PathBuilder.rot 0 325.8 216.88 0 0))
    (snd (PathBuilder.rot 0 325.8 216.88 0 0))
  <> PathBuilder.rot (0 + 0) 325.8 216.88 0 0.
Proof.
  rewrite Rplus_0_l, !rot_zero. cbn [fst snd]. split.
  - intros E. injection E as E1 E2. lra.
  - intros E. injection E as E1 E2. lra.
Qed.

(** C7 (amended): [rot] takes a point relative to the pivot to the pivot
    plus the rotated point, and [rot_t] rotates a vector.  Rotating a
    vector by [b] and then by [a] is rotating it by [a + b], also when the
    second step is [rot]; read on artboard points, rotations about one
    pivot compose by adding their angles and the zero rotation changes
    nothing; [rot_t] at angle zero returns its input and [rot] at angle
    zero returns its input moved by the pivot.  Applying [rot] to the
    vertices and [rot_t] to the tangents of a path, which is how
    [wing_path] builds the flipper, keeps the number of vertices and
    tangents, the closed flag and the total arc length, for every angle. *)
Theorem rotation_laws :
  forall a b ox oy : R,
    (forall x y,
        PathBuilder.rot_t a (fst (PathBuilder.rot_t b x y))
          (snd (PathBuilder.rot_t b x y))
        = PathBuilder.rot_t (a + b) x y) /\
    (forall x y,
        PathBuilder.rot a ox oy (fst (PathBuilder.rot_t b x y))
          (snd (PathBuilder.rot_t b x y))
        = PathBuilder.rot (a + b) ox oy x y) /\
    (forall q,
        PathBuilder.about_pivot a ox oy (PathBuilder.about_pivot b ox oy q)
        = PathBuilder.about_pivot (a + b) ox oy q) /\
    (forall q, PathBuilder.about_pivot 0 ox oy q = q) /\
    (forall x y, PathBuilder.rot_t 0 x y = (x, y)) /\
    (forall x y, PathBuilder.rot 0 ox oy x y = (x + ox, y + oy)%R) /\
    (forall pa,
        let pa' := PathBuilder.rotate_path a ox oy pa in
        PathBuilder.closed pa' = PathBuilder.closed pa /\
        List.length (PathBuilder.vertices pa')
        = List.length (PathBuilder.vertices pa) /\
        List.length (PathBuilder.in_tangents pa')
        = List.length (PathBuilder.in_tangents pa) /\
        List.length (PathBuilder.out_tangents pa')
        = List.length (PathBuilder.out_tangents pa) /\
        Curve.path_length (Curve.segments_of_path pa')
        = Curve.path_length (Curve.segments_of_path pa)) /\
    (forall cx cy side wing_w wing_h angle_deg,
        PathBuilder.wing_path cx cy side wing_w wing_h angle_deg
        = PathBuilder.rotate_path
            (PathBuilder.radians (IZR side * angle_deg))
            (cx + IZR side * PathBuilder.p 0.37)
            (cy + PathBuilder.p 0.02 - wing_h * 0.4)
            (PathBuilder.wing_local side wing_w wing_h)).
Proof.
  intros a b ox oy.
  split; [intros; apply rot_t_compose|].
  split; [intros; apply rot_after_rot_t|].
  split; [intros; apply about_pivot_compose|].
  split; [intros; apply about_pivot_zero|].
  split; [intros; apply rot_t_zero|].
  split; [intros; apply rot_zero|].
  split.
  - intros pa pa'. subst pa'.
    split; [reflexivity|].
    unfold PathBuilder.rotate_path;
      cbn [PathBuilder.vertices PathBuilder.in_tangents
           PathBuilder.out_tangents].
    rewrite !length_map. repeat (split; [reflexivity|]).
    fold (PathBuilder.rotate_path a ox oy pa).
    rewrite segments_rotate_path. apply path_length_rot_seg.
  - intros. apply wing_path_is_rotated_local.
Qed.

(** ** Size arguments of the path constructors *)

(** C4, as the spec words it, fails: the ellipse constructor called with
    the radius [rx = -50] returns a four-vertex path and raises nothing. *)
Lemma ellipse_accepts_negative_radius :
  exists pa,
    Calls.call_ellipse 100 100 (-50) 30 = Calls.Returned pa /\
    List.length (PathBuilder.vertices pa) = 4%nat /\
    Calls.call_ellipse 100 100 (-50) 30
    <> Calls.Raised Calls.InvalidGeometry.
Proof.
  eexists. split; [reflexivity|]. split; [reflexivity|]. discriminate.
Qed.

(** C4 (amended): no path constructor checks its size arguments.  For all
    real arguments, positive or not, the ellipse, the egg shape, the
    rounded triangle, the flipper and the scarf return a closed path with
    4, 6, 3, 4 and 7 vertices and as many in- and out-tangents; none of
    them raises [InvalidGeometry]. *)
Theorem constructors_accept_every_size :
  forall (cx cy a b angle_deg : R) (side : Z),
    let shaped (o : Calls.outcome) (n : nat) :=
      exists pa,
        o = Calls.Returned pa /\
        PathBuilder.closed pa = true /\
        List.length (PathBuilder.vertices pa) = n /\
        List.length (PathBuilder.in_tangents pa) = n /\
        List.length (PathBuilder.out_tangents pa) = n in
    shaped (Calls.call_ellipse cx cy a b) 4%nat /\
    shaped (Calls.call_egg cx cy a b) 6%nat /\
    shaped (Calls.call_rounded_triangle cx cy a b) 3%nat /\
    shaped (Calls.call_wing cx cy side a b angle_deg) 4%nat /\
    shaped (Calls.call_scarf cx cy) 7%nat.
Proof.
  intros cx cy a b angle_deg side shaped. subst shaped. cbv beta.
  repeat split; eexists; (split; [reflexivity|]); repeat split; reflexivity.
Qed.

(** ** Asset embedding *)
Section EmbedFacts.
Import Embed.
Local Open Scope string_scope.
Variable b64encode : list Byte.byte -> string.
Variable splitext_lower : string -> string.

Local Abbreviation embed_asset :=
  (Embed.embed_asset b64encode splitext_lower).
Local Abbreviation embed_assets :=
  (Embed.embed_assets b64encode splitext_lower).

Lemma embed_assets_cons z a rest :
  embed_assets z (a :: rest)
  = (fst (embed_asset z a) :: fst (embed_assets z rest),
     (snd (embed_asset z a) ++ snd (embed_assets z rest))%list).
Proof.
  cbn [Embed.embed_assets].
  destruct (embed_asset z a) as [a' out].
  destruct (embed_assets z rest) as [rest' out']. reflexivity.
Qed.


Lemma embed_asset_missing z a :
  found z a = false ->
  embed_asset z a
  = (a, [ AssetLine (get (a_id a) EmptyString) (get (a_p a) EmptyString) (get (a_u a) EmptyString)
            (get (a_e a) 0%Z);
          NotFoundLine (lookup_key a);
          AvailableLine (image_files z) ]).
Proof.
  unfold found, lookup_key, Embed.embed_asset. now intros ->.
Qed.

Lemma embed_asset_found z a :
  found z a = true ->
  embed_asset z a
  = ({| a_id := a_id a;
        a_p := Some ("data:" ++ mime_of splitext_lower (get (a_p a) EmptyString)
                     ++ ";base64," ++ b64encode (read z (lookup_key a)));
        a_u := Some EmptyString;
        a_e := Some 1%Z |},
     [ AssetLine (get (a_id a) EmptyString) (get (a_p a) EmptyString) (get (a_u a) EmptyString)
         (get (a_e a) 0%Z);
       EmbeddedLine (lookup_key a) (List.length (read z (lookup_key a))) ]).
Proof.
  unfold found, lookup_key, Embed.embed_asset. now intros ->.
Qed.

Lemma embed_assets_length z assets :
  List.length (fst (embed_assets z assets)) = List.length assets.
Proof.
  induction assets as [|a rest IH]; [reflexivity|].
  rewrite embed_assets_cons. cbn [fst List.length]. now rewrite IH.
Qed.
End EmbedFacts.



(** * Further properties of the generators *)

(** ** The helper [sway_keyframes] *)
Section SwayHelper.
Import Timeline.
Local Open Scope Z_scope.

(** With a non-positive step the loop condition never fails: whatever the
    fuel, the loop is still running when it is used up. *)
Lemma sway_loop_never_returns {A : Type} (mk : Z -> Z -> keyframe A)
    step total :
  step <= 0 ->
  forall fuel t dir, t <= total -> sway_loop fuel mk step total t dir = None.
Proof.
  intros Hs. induction fuel as [|fuel IH]; intros t dir Ht; [reflexivity|].
  cbn [sway_loop]. destruct (Z.leb_spec t total) as [_|Hgt]; [|lia].
  now rewrite IH by lia.
Qed.
End SwayHelper.

(** X1: [sway_keyframes] called with a half-cycle of zero or fewer frames
    never leaves its loop: no amount of fuel yields a track. *)
Theorem sway_keyframes_diverges :
  forall fuel ax A Hc,
    (Hc <= 0)%Z -> Timeline.sway_keyframes fuel ax A Hc = None.
Proof.
  intros fuel ax A Hc Hs. unfold Timeline.sway_keyframes.
  cbn [Timeline.smooth_ease].
  now rewrite sway_loop_never_returns by (assumption || discriminate).
Qed.

(** X1 at a half-cycle of zero frames and a thousand units of fuel. *)
Lemma sway_keyframes_diverges_witness :
  Timeline.sway_keyframes 1000 Timeline.AxisX 2.0%Q 0 = None.
Proof.
  apply sway_keyframes_diverges. discriminate.
Defined.

(** X2: for a half-cycle [Hc > 0], [sway_keyframes] returns
    [floor(210 / Hc) + 2] keyframes; keyframe [k <= floor(210 / Hc)] sits
    at frame [k * Hc] and holds [A * (-1)^k] on the chosen axis and 0 on
    the other; the last keyframe sits at frame 210, holds [0, 0] and has
    no easing handles. *)
Theorem sway_keyframes_shape :
  forall fuel ax A Hc,
    (0 < Hc)%Z ->
    (Timeline.iterations Hc Timeline.TOTAL_FRAMES 0 < fuel)%nat ->
    exists kfs,
      Timeline.sway_keyframes fuel ax A Hc = Some kfs /\
      Z.of_nat (List.length kfs) = (210 / Hc + 2)%Z /\
      (forall k, (k <= Z.to_nat (210 / Hc))%nat ->
         nth_error kfs k
         = Some (Timeline.MkKf (Z.of_nat k * Hc)%Z
                   (match ax with
                    | Timeline.AxisX =>
                        (A * inject_Z ((-1) ^ Z.of_nat k), 0)%Q
                    | Timeline.AxisOther =>
                        (0, A * inject_Z ((-1) ^ Z.of_nat k))%Q
                    end)
                   (Some (fst Timeline.smooth_ease))
                   (Some (snd Timeline.smooth_ease)))) /\
      nth_error kfs (S (Z.to_nat (210 / Hc)))
      = Some (Timeline.MkKf 210%Z (0, 0)%Q None None).
Proof.
  intros fuel ax A Hc Hs Hf. unfold Timeline.sway_keyframes.
  cbn [Timeline.smooth_ease].
  rewrite sway_loop_spec by assumption.
  rewrite iterations_from_zero by (assumption || discriminate).
  change Timeline.TOTAL_FRAMES with 210%Z.
  assert (0 <= 210 / Hc)%Z by (apply Z.div_pos; lia).
  eexists. split; [reflexivity|]. split; [|split].
  - rewrite length_app, sway_list_length. cbn [List.length]. lia.
  - intros k Hk. rewrite nth_error_app1 by (rewrite sway_list_length; lia).
    rewrite sway_list_nth_error by lia.
    unfold Timeline.sign_at. rewrite Z.mul_1_l, Z.add_0_l.
    destruct ax; reflexivity.
  - rewrite nth_error_app2 by (rewrite sway_list_length; lia).
    rewrite sway_list_length, Nat.sub_diag. reflexivity.
Qed.

(** X2 at a half-cycle of 70 frames: five keyframes. *)
Lemma sway_keyframes_shape_witness :
  exists kfs,
    Timeline.sway_keyframes 5 Timeline.AxisX 2.0%Q 70 = Some kfs /\
    Z.of_nat (List.length kfs) = (210 / 70 + 2)%Z.
Proof.
  destruct (sway_keyframes_shape 5 Timeline.AxisX 2.0%Q 70%Z)
    as (kfs & E & L & _).
  - reflexivity.
  - vm_compute. lia.
  - exists kfs. split; [exact E | exact L].
Defined.

(** ** Order and range of the sway keyframes *)
Section SwayOrder.
Import Timeline.
Local Open Scope Z_scope.

Lemma sway_list_times {A : Type} (mk : Z -> Z -> keyframe A) step t dir n :
  (forall t' d, kf_t (mk t' d) = t') ->
  map kf_t (sway_list mk step t dir n)
  = map (fun k => t + Z.of_nat k * step) (seq 0 n).
Proof.
  intros Hmk. unfold sway_list. rewrite map_map. apply map_ext.
  intros k. apply Hmk.
Qed.

Lemma multiples_sorted step t a n :
  0 <= step ->
  StronglySorted Z.le (map (fun k => t + Z.of_nat k * step) (seq a n)).
Proof.
  intros Hs. revert a. induction n as [|n IH]; intros a; cbn [seq map].
  - constructor.
  - constructor; [apply IH|].
    apply Forall_forall. intros x Hx. apply in_map_iff in Hx.
    destruct Hx as (k & <- & Hk). apply in_seq in Hk. nia.
Qed.

Lemma sorted_snoc l x :
  StronglySorted Z.le l -> Forall (fun y => y <= x) l ->
  StronglySorted Z.le (l ++ [x]).
Proof.
  induction 1 as [|a l Hl IH Ha]; intros Hx; cbn [app].
  - repeat constructor.
  - inversion Hx as [|? ? Hax Hlx]; subst. constructor; [now apply IH|].
    apply Forall_app. split; [assumption|]. now repeat constructor.
Qed.

Lemma multiples_bounded step T n :
  0 < step -> 0 <= T -> (n <= S (Z.to_nat (T / step)))%nat ->
  Forall (fun y => 0 <= y <= T)
         (map (fun k => 0 + Z.of_nat k * step) (seq 0 n)).
Proof.
  intros Hs HT Hn. apply Forall_forall. intros x Hx.
  apply in_map_iff in Hx. destruct Hx as (k & <- & Hk).
  apply in_seq in Hk.
  assert (0 <= T / step) by (apply Z.div_pos; lia).
  assert (Z.of_nat k <= T / step) by lia.
  assert (step * (T / step) <= T) by (apply Z.mul_div_le; lia).
  nia.
Qed.

Lemma sign_at_one_cases k : sign_at 1 k = 1 \/ sign_at 1 k = -1.
Proof.
  destruct (Nat.even k) eqn:He.
  - left. now apply sign_at_even.
  - right. rewrite sign_at_odd; [reflexivity|].
    now rewrite <- Nat.negb_even, He.
Qed.
End SwayOrder.

(** X3: the keyframes of the position sway come out in non-decreasing
    order of time, and every one of them lies between frame 0 and frame
    [T]. *)
Theorem sway_times_sorted_and_in_range :
  forall fuel sv A Hc T,
    (0 < Hc)%Z -> (0 <= T)%Z ->
    (Timeline.iterations Hc T 0 < fuel)%nat ->
    exists kfs,
      Timeline.sway_position_keyframes fuel sv A Hc T = Some kfs /\
      StronglySorted Z.le (map Timeline.kf_t kfs) /\
      Forall (fun k => (0 <= Timeline.kf_t k <= T)%Z) kfs.
Proof.
  intros fuel sv A Hc T Hs HT Hf.
  rewrite sway_position_keyframes_eq by assumption.
  eexists. split; [reflexivity|].
  assert (Hb := multiples_bounded Hc T (S (Z.to_nat (T / Hc))) Hs HT
                  (le_n _)).
  split.
  - rewrite map_app, sway_list_times by reflexivity. cbn [map Timeline.kf_t].
    apply sorted_snoc; [apply multiples_sorted; lia|].
    eapply Forall_impl; [|exact Hb]. cbv beta. intros; lia.
  - apply Forall_app. split.
    + apply Forall_forall. intros k Hk.
      rewrite Forall_forall in Hb. apply Hb.
      apply (in_map Timeline.kf_t) in Hk.
      now rewrite sway_list_times in Hk by reflexivity.
    + repeat constructor; cbn [Timeline.kf_t]; lia.
Qed.

(** X3 at the shipped constants. *)
Lemma sway_times_sorted_and_in_range_witness :
  exists kfs,
    Timeline.sway_position_keyframes 6 (200, 230, 0)%Q 2.0%Q 45 210
    = Some kfs /\
    StronglySorted Z.le (map Timeline.kf_t kfs).
Proof.
  destruct (sway_times_sorted_and_in_range 6 (200, 230, 0)%Q 2.0%Q 45 210)
    as (kfs & E & S & _).
  - reflexivity.
  - discriminate.
  - vm_compute. lia.
  - exists kfs. split; [exact E | exact S].
Defined.

(** X4: the position sway moves a layer along x only and by exactly the
    amplitude: every keyframe keeps the static y and z and has x equal to
    the static x plus or minus [A]. *)
Theorem sway_moves_x_by_amplitude :
  forall fuel sv A Hc T,
    (0 < Hc)%Z -> (0 <= T)%Z ->
    (Timeline.iterations Hc T 0 < fuel)%nat ->
    exists kfs,
      Timeline.sway_position_keyframes fuel sv A Hc T = Some kfs /\
      Forall (fun k =>
                Timeline.vy (Timeline.kf_s k) = Timeline.vy sv /\
                Timeline.vz (Timeline.kf_s k) = Timeline.vz sv /\
                ((Timeline.vx (Timeline.kf_s k) == Timeline.vx sv + A)%Q \/
                 (Timeline.vx (Timeline.kf_s k) == Timeline.vx sv - A)%Q))
             kfs.
Proof.
  intros fuel sv A Hc T Hs HT Hf.
  rewrite sway_position_keyframes_eq by assumption.
  eexists. split; [reflexivity|].
  apply Forall_app. split.
  - apply Forall_forall. intros k Hk. unfold Timeline.sway_list in Hk.
    apply in_map_iff in Hk. destruct Hk as (n & <- & _).
    cbn [Timeline.kf_s Timeline.vx Timeline.vy Timeline.vz fst snd].
    split; [reflexivity|]. split; [reflexivity|].
    destruct (sign_at_one_cases n) as [-> | ->]; [left|right].
    + change (inject_Z 1) with 1%Q. ring.
    + change (inject_Z (-1)) with (- (1))%Q. ring.
  - constructor; [|constructor].
    cbn [Timeline.kf_s Timeline.vx Timeline.vy Timeline.vz fst snd].
    split; [reflexivity|]. split; [reflexivity|]. left. reflexivity.
Qed.

(** X4 at the shipped constants. *)
Lemma sway_moves_x_by_amplitude_witness :
  exists kfs,
    Timeline.sway_position_keyframes 6 (200, 230, 0)%Q 2.0%Q 45 210
    = Some kfs /\
    Forall (fun k => Timeline.vy (Timeline.kf_s k) = 230%Q) kfs.
Proof.
  destruct (sway_moves_x_by_amplitude 6 (200, 230, 0)%Q 2.0%Q 45 210)
    as (kfs & E & F).
  - reflexivity.
  - discriminate.
  - vm_compute. lia.
  - exists kfs. split; [exact E|].
    eapply Forall_impl; [|exact F]. cbv beta. intros k (Hy & _). exact Hy.
Defined.

(** ** Assembling the layers *)

(** X5: the sway pass of [generate_lottie] returns as many layers as it
    was given, in the same order, each with its name, index, opacity,
    rotation, anchor and scale untouched.  A layer whose position is
    already animated keeps its track; a layer with a static position gets
    the six-keyframe sway track around that position. *)
Theorem add_sway_keeps_layers :
  forall fuel ls,
    (5 < fuel)%nat ->
    exists out,
      Timeline.add_sway fuel ls = Some out /\
      Forall2
        (fun l l' =>
           Timeline.nm l' = Timeline.nm l /\
           Timeline.ind l' = Timeline.ind l /\
           Timeline.tr_o (Timeline.ks l') = Timeline.tr_o (Timeline.ks l) /\
           Timeline.tr_r (Timeline.ks l') = Timeline.tr_r (Timeline.ks l) /\
           Timeline.tr_a (Timeline.ks l') = Timeline.tr_a (Timeline.ks l) /\
           Timeline.tr_s (Timeline.ks l') = Timeline.tr_s (Timeline.ks l) /\
           match Timeline.tr_p (Timeline.ks l) with
           | Timeline.Animated track =>
               Timeline.tr_p (Timeline.ks l') = Timeline.Animated track
           | Timeline.Static sv =>
               exists track,
                 Timeline.tr_p (Timeline.ks l') = Timeline.Animated track /\
                 Timeline.sway_position_keyframes fuel sv 2.0%Q 45
                   Timeline.TOTAL_FRAMES = Some track /\
                 List.length track = 6%nat
           end)
        ls out.
Proof.
  intros fuel ls Hf.
  assert (Hit : (Timeline.iterations 45 Timeline.TOTAL_FRAMES 0 < fuel)%nat)
    by (change (Timeline.iterations 45 Timeline.TOTAL_FRAMES 0) with 5%nat;
        lia).
  induction ls as [|l rest (out & E & F)].
  - exists []. split; [reflexivity | constructor].
  - cbn [Timeline.add_sway]. rewrite E.
    destruct (Timeline.tr_p (Timeline.ks l)) as [sv|track] eqn:Hp.
    + rewrite sway_position_keyframes_eq by (assumption || reflexivity
                                             || discriminate).
      eexists. split; [reflexivity|]. constructor; [|exact F].
      cbn [Timeline.nm Timeline.ind Timeline.ks Timeline.set_p
           Timeline.tr_o Timeline.tr_r Timeline.tr_a Timeline.tr_s
           Timeline.tr_p].
      repeat (split; [reflexivity|]). rewrite Hp.
      eexists. split; [reflexivity|].
      split; [now rewrite sway_position_keyframes_eq
                by (assumption || reflexivity || discriminate)|].
      rewrite length_app, sway_list_length. reflexivity.
    + exists (l :: out). split; [reflexivity|]. constructor; [|exact F].
      repeat (split; [reflexivity|]). now rewrite Hp.
Qed.

(** X5 on two layers, the second already animated. *)
Lemma add_sway_keeps_layers_witness :
  exists out,
    Timeline.add_sway 6
      [Timeline.build_head_layer;
       Timeline.build_eye_layer 1 "Right Eye"] = Some out /\
    map Timeline.nm out = ["Head"; "Right Eye"]%string.
Proof.
  destruct (add_sway_keeps_layers 6
              [Timeline.build_head_layer;
               Timeline.build_eye_layer 1 "Right Eye"])
    as (out & E & F).
  - lia.
  - exists out. split; [exact E|].
    inversion F as [|l1 o1 r1 ro1 (N1 & _) F1]; subst.
    inversion F1 as [|l2 o2 r2 ro2 (N2 & _) F2]; subst.
    inversion F2; subst. cbn [map]. now rewrite N1, N2.
Defined.

(** X6: [assign_indices] numbers the layers consecutively from its start
    value in list order, so no two layers share an index, and it changes
    nothing else. *)
Theorem assign_indices_numbers_layers :
  forall i ls,
    map Timeline.ind (Timeline.assign_indices i ls)
    = map (fun k => Some (i + Z.of_nat k)%Z) (seq 0 (List.length ls)) /\
    NoDup (map Timeline.ind (Timeline.assign_indices i ls)) /\
    map Timeline.nm (Timeline.assign_indices i ls) = map Timeline.nm ls /\
    map Timeline.ks (Timeline.assign_indices i ls) = map Timeline.ks ls.
Proof.
  intros i ls.
  assert (Hind : forall ls i,
             map Timeline.ind (Timeline.assign_indices i ls)
             = map (fun k => Some (i + Z.of_nat k)%Z)
                 (seq 0 (List.length ls))).
  { clear. induction ls as [|l rest IH]; intros i; [reflexivity|].
    cbn [Timeline.assign_indices map List.length seq Timeline.ind].
    rewrite IH, <- seq_shift, map_map. f_equal; [f_equal; lia|].
    apply map_ext. intros k. f_equal. lia. }
  split; [apply Hind|]. split; [|split].
  - rewrite Hind. apply Finite.Injective_map_NoDup; [|apply seq_NoDup].
    intros a b E. injection E as E. lia.
  - revert i. induction ls as [|l rest IH]; intros i; [reflexivity|].
    cbn [Timeline.assign_indices map Timeline.nm]. now rewrite IH.
  - revert i. induction ls as [|l rest IH]; intros i; [reflexivity|].
    cbn [Timeline.assign_indices map Timeline.ks]. now rewrite IH.
Qed.

(** ** Gradient stops *)

(** X7: when every colour is an RGB triple, the flat stop array of a
    gradient fill has four entries per stop: entry [4k] is the offset of
    stop [k] and the next three are its colour; the stop count stored
    beside the array is a quarter of its length. *)
Theorem gradient_stops_layout :
  forall colors,
    Forall (fun c => List.length (snd c) = 3%nat) colors ->
    let stops := Fills._build_gradient_stops colors in
    List.length stops = (4 * List.length colors)%nat /\
    (forall k offset color,
        nth_error colors k = Some (offset, color) ->
        nth_error stops (4 * k) = Some offset /\
        firstn 3 (skipn (4 * k + 1) stops) = color) /\
    (forall start end_ opacity,
        let g := Fills.make_gradient_fill start end_ colors opacity in
        (4 * Fills.gf_p g)%nat = List.length (Fills.gf_k g)).
Proof.
  intros colors Hrgb stops. subst stops.
  assert (Hlen : List.length (Fills._build_gradient_stops colors)
                 = (4 * List.length colors)%nat).
  { induction Hrgb as [|[offset color] rest Hc _ IH]; [reflexivity|].
    cbn [Fills._build_gradient_stops List.length snd] in *.
    rewrite length_app, IH. cbn [List.length]. rewrite Hc. lia. }
  split; [exact Hlen|]. split.
  - induction Hrgb as [|[o c] rest Hc Hrest IH]; intros k offset color Hk.
    + destruct k; discriminate Hk.
    + cbn [snd] in Hc.
      destruct c as [|c1 [|c2 [|c3 [|c4 c]]]]; try discriminate Hc.
      cbn [Fills._build_gradient_stops app].
      destruct k as [|k].
      * injection Hk as <- <-. split; reflexivity.
      * cbn [nth_error] in Hk.
        assert (Hlen' : List.length (Fills._build_gradient_stops rest)
                        = (4 * List.length rest)%nat).
        { clear - Hrest. induction Hrest as [|[o' c'] r Hc' _ IH'];
            [reflexivity|].
          cbn [Fills._build_gradient_stops List.length snd] in *.
          rewrite length_app, IH'. cbn [List.length]. rewrite Hc'. lia. }
        destruct (IH Hlen' k offset color Hk) as [Ho Hcol].
        replace (4 * S k)%nat with (S (S (S (S (4 * k))))) by lia.
        cbn [nth_error Nat.add skipn]. split; [exact Ho | exact Hcol].
  - intros start end_ opacity g. subst g.
    cbn [Fills.make_gradient_fill Fills.gf_p Fills.gf_k]. now rewrite Hlen.
Qed.

(** X7 on the belly gradient's three stops. *)
Lemma gradient_stops_layout_witness :
  List.length
    (Fills._build_gradient_stops
       [ (0.0, [0.96; 0.96; 0.97]); (0.7, [0.96; 0.96; 0.97]);
         (1.0, [0.91; 0.91; 0.93]) ]%Q)
  = 12%nat.
Proof.
  refine (proj1 (gradient_stops_layout
                   [ (0.0, [0.96; 0.96; 0.97]); (0.7, [0.96; 0.96; 0.97]);
                     (1.0, [0.91; 0.91; 0.93]) ]%Q _)).
  repeat constructor.
Defined.

(** ** The ellipse for every centre and radii *)
Section EllipseGeneral.
Import PathBuilder Curve.
Local Open Scope R_scope.

(** The squared radius of the unit quarter arc, written in [s = u (1 - u)]. *)
Lemma quarter_arc_radius u :
  bern 0 KAPPA 1 1 u ^ 2 + bern 1 1 KAPPA 0 u ^ 2
  = 1 + (u * (1 - u)) ^ 2
        * (0.05887530279936 - 0.23549780559872 * (u * (1 - u))).
Proof. unfold bern, KAPPA. nra. Qed.

Lemma quarter_arc_bounds u :
  0 <= u <= 1 ->
  1 <= bern 0 KAPPA 1 1 u ^ 2 + bern 1 1 KAPPA 0 u ^ 2 <= 1.00055.
Proof.
  intros Hu. rewrite quarter_arc_radius.
  set (s := u * (1 - u)).
  assert (Hs : 0 <= s <= 1 / 4).
  { unfold s. split.
    - apply Rmult_le_pos; lra.
    - pose proof (pow2_ge_0 (u - 1 / 2)). nra. }
  assert (Hsq : 0 <= s ^ 2) by apply pow2_ge_0.
  assert (Hq : 0 <= 0.05887530279936 - 0.23549780559872 * s) by lra.
  assert (Hlo : 0 <= s ^ 2 * (0.05887530279936 - 0.23549780559872 * s))
    by (apply Rmult_le_pos; assumption).
  assert (Hc : 0 <= (s - 1 / 6) ^ 2 * (s + 1 / 12))
    by (apply Rmult_le_pos; [apply pow2_ge_0 | lra]).
  split; [lra|]. nra.
Qed.
End EllipseGeneral.

Lemma on_curve_first_point segs sg pt :
  In sg segs -> Curve.s0 sg = pt -> Curve.on_curve segs pt.
Proof. intros Hin <-. now apply on_curve_start. Qed.

(** The four vertices lie on the curve. *)
Lemma ellipse_vertices_on_curve (cx cy rx ry : R) :
  let segs :=
    Curve.segments_of_path (PathBuilder.ellipse_bezier_path cx cy rx ry) in
  Curve.on_curve segs (cx, cy - ry)%R /\
  Curve.on_curve segs (cx + rx, cy)%R /\
  Curve.on_curve segs (cx, cy + ry)%R /\
  Curve.on_curve segs (cx - rx, cy)%R.
Proof.
  intros segs. subst segs. rewrite ellipse_segments.
  repeat split; eapply on_curve_first_point.
  1: left; reflexivity.
  1: reflexivity.
  1: right; left; reflexivity.
  1: reflexivity.
  1: right; right; left; reflexivity.
  1: reflexivity.
  1: right; right; right; left; reflexivity.
  reflexivity.
Qed.

(** X8: for every centre and non-negative radii the ellipse path stays in
    the box [cx - rx, cx + rx] x [cy - ry, cy + ry] and touches each of
    its four sides at a vertex. *)
Theorem ellipse_bounding_box :
  forall cx cy rx ry : R,
    (0 <= rx)%R -> (0 <= ry)%R ->
    let segs :=
      Curve.segments_of_path (PathBuilder.ellipse_bezier_path cx cy rx ry) in
    (forall pt, Curve.on_curve segs pt ->
       (cx - rx <= fst pt <= cx + rx)%R /\
       (cy - ry <= snd pt <= cy + ry)%R) /\
    Curve.on_curve segs (cx, cy - ry)%R /\
    Curve.on_curve segs (cx + rx, cy)%R /\
    Curve.on_curve segs (cx, cy + ry)%R /\
    Curve.on_curve segs (cx - rx, cy)%R.
Proof.
  intros cx cy rx ry Hrx Hry segs. subst segs.
  split; [intros pt; now apply ellipse_in_box|].
  apply ellipse_vertices_on_curve.
Qed.

(** X8 on the belly of the mascot. *)
Lemma ellipse_bounding_box_witness :
  Curve.on_curve
    (Curve.segments_of_path (PathBuilder.ellipse_bezier_path 200 287.6 102 129.2))
    (200 + 102, 287.6)%R.
Proof.
  destruct (ellipse_bounding_box 200 287.6 102 129.2)%R
    as (_ & _ & Hright & _); [lra | lra | exact Hright].
Defined.


(** X10: the ellipse path is an ellipse to within 0.055 percent of the
    squared radius: every point [(x, y)] of its curve satisfies
    [rx^2 ry^2 <= ry^2 (x - cx)^2 + rx^2 (y - cy)^2 <= 1.00055 rx^2 ry^2],
    for every centre and radii. *)
Theorem ellipse_radial_accuracy :
  forall (cx cy rx ry : R) (pt : PathBuilder.point),
    Curve.on_curve
      (Curve.segments_of_path (PathBuilder.ellipse_bezier_path cx cy rx ry))
      pt ->
    ((rx * ry) ^ 2
     <= ry ^ 2 * (fst pt - cx) ^ 2 + rx ^ 2 * (snd pt - cy) ^ 2
     <= 1.00055 * (rx * ry) ^ 2)%R.
Proof.
  intros cx cy rx ry pt (sg & u & Hin & Hu & <-).
  rewrite ellipse_segments in Hin. cbn [In] in Hin.
  pose proof (quarter_arc_bounds u Hu) as Hb.
  pose proof (pow2_ge_0 (rx * ry)) as Hm.
  set (a := Curve.bern 0 PathBuilder.KAPPA 1 1 u) in *.
  set (b := Curve.bern 1 1 PathBuilder.KAPPA 0 u) in *.
  assert (Hgoal : forall X Y ea eb,
             ((X = rx * a \/ X = - rx * a) /\ (Y = ry * b \/ Y = - ry * b)
              \/ (X = rx * b \/ X = - rx * b) /\ (Y = ry * a \/ Y = - ry * a))%R ->
             ea = X -> eb = Y ->
             ((rx * ry) ^ 2 <= ry ^ 2 * ea ^ 2 + rx ^ 2 * eb ^ 2
              <= 1.00055 * (rx * ry) ^ 2)%R).
  { intros X Y ea eb HXY -> ->.
    replace (ry ^ 2 * X ^ 2 + rx ^ 2 * Y ^ 2)%R
      with ((rx * ry) ^ 2 * (a ^ 2 + b ^ 2))%R
      by (destruct HXY as [[[-> | ->] [-> | ->]] | [[-> | ->] [-> | ->]]];
          ring).
    nra. }
  destruct Hin as [<- | [<- | [<- | [<- | []]]]];
    unfold Curve.bezier; cbn [Curve.s0 Curve.s1 Curve.s2 Curve.s3 fst snd].
  - apply (Hgoal (rx * a) (- ry * b))%R; [tauto| |];
      unfold a, b, Curve.bern; ring.
  - apply (Hgoal (rx * b) (ry * a))%R; [tauto| |];
      unfold a, b, Curve.bern; ring.
  - apply (Hgoal (- rx * a) (ry * b))%R; [tauto| |];
      unfold a, b, Curve.bern; ring.
  - apply (Hgoal (- rx * b) (- ry * a))%R; [tauto| |];
      unfold a, b, Curve.bern; ring.
Qed.

(** X10 at the right-hand vertex of the scenario ellipse. *)
Lemma ellipse_radial_accuracy_witness :
  ((50 * 30) ^ 2
   <= 30 ^ 2 * (fst (100 + 50, 100) - 100) ^ 2
      + 50 ^ 2 * (snd (100 + 50, 100) - 100) ^ 2
   <= 1.00055 * (50 * 30) ^ 2)%R.
Proof.
  apply (ellipse_radial_accuracy 100 100 50 30 (100 + 50, 100)%R).
  apply (ellipse_vertices_on_curve 100 100 50 30).
Defined.

(** ** Mirror images, placement and translation *)
Section Wings.
Import PathBuilder.
Local Open Scope R_scope.

Lemma radians_opposite deg :
  radians (IZR (-1) * deg) = - radians (IZR 1 * deg).
Proof. unfold radians. lra. Qed.

Lemma rot_mirror rad ox oy cx x y :
  rot (- rad) (2 * cx - ox) oy (- x) y
  = Layout.mirror_point cx (rot rad ox oy x y).
Proof.
  unfold rot, Layout.mirror_point; cbn [fst snd].
  rewrite cos_neg, sin_neg. f_equal; ring.
Qed.

Lemma rot_t_mirror rad x y :
  rot_t (- rad) (- x) y = Layout.mirror_vector (rot_t rad x y).
Proof.
  unfold rot_t, Layout.mirror_vector; cbn [fst snd].
  rewrite cos_neg, sin_neg. f_equal; ring.
Qed.
End Wings.

(** X11: the left flipper is the mirror image of the right flipper in the
    vertical line through the centre, vertex by vertex and tangent by
    tangent, for every centre, size and angle; the same holds for the two
    flippers of the markup. *)
Theorem flippers_are_mirror_images :
  (forall cx cy wing_w wing_h angle_deg : R,
      PathBuilder.wing_path cx cy (-1) wing_w wing_h angle_deg
      = Layout.mirror_path cx
          (PathBuilder.wing_path cx cy 1 wing_w wing_h angle_deg)) /\
  Markup.wing_path (-1)
  = map (Layout.mirror_cmd PathBuilder.CX) (Markup.wing_path 1).
Proof.
  split.
  - intros cx cy wing_w wing_h angle_deg.
    unfold PathBuilder.wing_path, Layout.mirror_path.
    cbn [PathBuilder.closed PathBuilder.vertices PathBuilder.in_tangents
         PathBuilder.out_tangents map].
    rewrite radians_opposite.
    rewrite <- !rot_mirror, <- !rot_t_mirror.
    repeat (f_equal; try lra).
  - cbv beta zeta delta [Markup.wing_path]. cbn [map Layout.mirror_cmd].
    change Vector.rot with PathBuilder.rot.
    rewrite radians_opposite.
    rewrite <- !rot_mirror.
    repeat (f_equal; try lra).
Qed.

(** X12: the icon's body outline at any centre and reference size is the
    outline of the unit drawing ([cx = cy = 0], [psize = 1]) scaled by
    [psize] and moved to the centre: its proportions do not depend on the
    resolution. *)
Theorem body_outline_scales_with_reference_size :
  forall cx cy psize : R,
    Vector.draw_body_shape cx cy psize
    = map (Layout.place_cmd cx cy psize) (Vector.draw_body_shape 0 0 1).
Proof.
  intros cx cy psize.
  cbv beta zeta delta [Vector.draw_body_shape].
  cbn [map Layout.place_cmd]. unfold Layout.place; cbn [fst snd].
  repeat (f_equal; try lra).
Qed.

(** X13: moving the centre of a path constructor by [(dx, dy)] moves
    every vertex by [(dx, dy)] and leaves every tangent as it is, for the
    ellipse, the egg shape, the rounded triangle, the flipper and the
    scarf alike. *)
Theorem constructors_commute_with_translation :
  forall cx cy dx dy a b angle_deg : R, forall side : Z,
    PathBuilder.ellipse_bezier_path (cx + dx) (cy + dy) a b
    = Layout.shift_path dx dy (PathBuilder.ellipse_bezier_path cx cy a b) /\
    PathBuilder.egg_shape_path (cx + dx) (cy + dy) a b
    = Layout.shift_path dx dy (PathBuilder.egg_shape_path cx cy a b) /\
    PathBuilder.rounded_triangle_path (cx + dx) (cy + dy) a b
    = Layout.shift_path dx dy (PathBuilder.rounded_triangle_path cx cy a b) /\
    PathBuilder.wing_path (cx + dx) (cy + dy) side a b angle_deg
    = Layout.shift_path dx dy
        (PathBuilder.wing_path cx cy side a b angle_deg) /\
    PathBuilder.scarf_path (cx + dx) (cy + dy)
    = Layout.shift_path dx dy (PathBuilder.scarf_path cx cy).
Proof.
  intros cx cy dx dy a b angle_deg side.
  repeat split;
    cbv beta zeta delta
      [PathBuilder.ellipse_bezier_path PathBuilder.egg_shape_path
       PathBuilder.rounded_triangle_path PathBuilder.wing_path
       PathBuilder.scarf_path Layout.shift_path PathBuilder.rot];
    cbn [map PathBuilder.closed PathBuilder.vertices PathBuilder.in_tangents
         PathBuilder.out_tangents fst snd];
    repeat (f_equal; try lra).
Qed.

(** ** The egg outline is lopsided *)
Section Lopsided.
Import PathBuilder Curve.
Local Open Scope R_scope.

Lemma egg_left_flank_bound u :
  0 <= u <= 1 -> -0.95 <= bern 0 (-0.4) (-1) (-0.75) u.
Proof.
  intros Hu. unfold bern.
  assert (Hsq : 0 <= (u - 21 / 25) ^ 2 * (u + 1.1)).
  { apply Rmult_le_pos; [apply pow2_ge_0 | lra]. }
  nra.
Qed.

(** No point of the egg outline lies further left than [0.95] of the
    half-width. *)
Lemma egg_left_extent cx cy w h pt :
  0 <= w ->
  on_curve (segments_of_path (egg_shape_path cx cy w h)) pt ->
  cx - 0.95 * w <= fst pt.
Proof.
  intros Hw (sg & u & Hin & Hu & <-).
  rewrite egg_segments in Hin. cbn [In] in Hin.
  destruct Hin as [<- | [<- | [<- | [<- | [<- | [<- | []]]]]]];
    unfold bezier; cbn [s0 s1 s2 s3 fst snd].
  4: { replace (bern cx (cx + - w * 0.4) (cx - w * 0.75 + - w * 0.25)
                  (cx - w * 0.75) u)
         with (cx + w * bern 0 (-0.4) (-1) (-0.75) u)
         by (unfold bern; nra).
       pose proof (egg_left_flank_bound u Hu) as Hb.
       pose proof (Rmult_le_compat_l w _ _ Hw Hb). lra. }
  all: apply (bern_bounds (cx - 0.95 * w) (cx + w)); try assumption; lra.
Qed.

(** The right flank at parameter [2/7]. *)
Lemma egg_right_bulge cx cy w h :
  0 < w ->
  exists pt,
    on_curve (segments_of_path (egg_shape_path cx cy w h)) pt /\
    cx + 0.954 * w < fst pt.
Proof.
  intros Hw.
  exists (bezier (MkSeg (cx + w * 0.95, cy - h * 0.1)
                    (cx + w * 0.95 + 0, cy - h * 0.1 + h * 0.45)
                    (cx + w * 0.75 + w * 0.25, cy + h * 0.7 + h * 0.15)
                    (cx + w * 0.75, cy + h * 0.7)) (2 / 7)).
  split.
  - eexists _, (2 / 7). split; [|split; [lra | reflexivity]].
    rewrite egg_segments. right. left. reflexivity.
  - unfold bezier, bern; cbn [s0 s1 s2 s3 fst snd]. nra.
Qed.
End Lopsided.

(** X14: the egg outline is not symmetric about the vertical line through
    its centre.  For a half-width [w > 0] its right flank passes a point
    further than [0.954 w] from the centre line, while no point of the
    outline is further than [0.95 w] to the left of it; so the mirror
    image of that point is not on the outline. *)
Theorem egg_outline_is_lopsided :
  forall cx cy w h : R,
    (0 < w)%R ->
    let segs :=
      Curve.segments_of_path (PathBuilder.egg_shape_path cx cy w h) in
    (forall pt, Curve.on_curve segs pt -> (cx - 0.95 * w <= fst pt)%R) /\
    exists pt,
      Curve.on_curve segs pt /\ (cx + 0.954 * w < fst pt)%R /\
      ~ Curve.on_curve segs (Layout.mirror_point cx pt).
Proof.
  intros cx cy w h Hw segs. subst segs.
  split; [intros pt; apply egg_left_extent; lra|].
  destruct (egg_right_bulge cx cy w h Hw) as (pt & Hon & Hx).
  exists pt. split; [exact Hon|]. split; [exact Hx|].
  intros Hm. apply egg_left_extent in Hm; [|lra].
  unfold Layout.mirror_point in Hm; cbn [fst] in Hm. lra.
Qed.

(** X14 on the mascot's body ([w = 149.6], [h = 163.2]), at its right
    upper vertex. *)
Lemma egg_outline_is_lopsided_witness :
  (200 - 0.95 * 149.6
   <= fst (200 + 149.6 * 0.95, 267.2 - 163.2 * 0.1))%R.
Proof.
  refine (proj1 (egg_outline_is_lopsided 200 267.2 149.6 163.2 _) _ _);
    [lra|].
  eapply on_curve_first_point.
  - rewrite egg_segments. right. left. reflexivity.
  - reflexivity.
Defined.

(** ** The icon's drawing calls *)
Section IconFacts.
Local Open Scope R_scope.

Lemma save_depth_app d a b :
  Icon.save_depth d (a ++ b)
  = match Icon.save_depth d a with
    | Some d' => Icon.save_depth d' b
    | None => None
    end.
Proof.
  revert d. induction a as [|o a IH]; intros d; [reflexivity|].
  destruct o; cbn [app Icon.save_depth]; try apply IH.
  destruct d; [reflexivity | apply IH].
Qed.

Lemma save_depth_flat_map {A : Type} (f : A -> list Icon.op) l :
  (forall x d, Icon.save_depth d (f x) = Some d) ->
  forall d, Icon.save_depth d (flat_map f l) = Some d.
Proof.
  intros Hf. induction l as [|x l IH]; intros d; [reflexivity|].
  cbn [flat_map]. now rewrite save_depth_app, Hf.
Qed.
End IconFacts.

(** X15: the tinted silhouette chooses a source once, opaque white, and
    every one of its seven fills (body, head, two flippers, two feet,
    scarf) is made with it, whatever source and saved states the context
    had before; the whole tinted icon paints a transparent background and
    then only white. *)
Theorem tinted_silhouette_fills_white :
  (forall (cx cy psize : R) (cur : Icon.source) (saved : list Icon.source),
      filter Icon.sets_source (Icon.draw_tinted_silhouette cx cy psize)
      = [Icon.SetSourceRgb (1, 1, 1)%R] /\
      Icon.sources_used cur saved (Icon.draw_tinted_silhouette cx cy psize)
      = repeat (Icon.Solid 1 1 1 1) 7) /\
  Icon.sources_used Icon.initial_source [] (Icon.generate_icon "tinted")
  = Icon.Solid 0 0 0 0 :: repeat (Icon.Solid 1 1 1 1) 7.
Proof.
  split; [intros; split|]; reflexivity.
Qed.

(** X16: drawn with [shadow=True], the body, the head and the flippers
    choose no source of their own: they fill with the source the caller
    set, once, once and twice, and leave the [save] stack as it was;
    drawn with [shadow=False] each fill is made with a gradient. *)
Theorem shadow_mode_keeps_callers_source :
  forall (cx cy psize : R) (cur : Icon.source) (saved : list Icon.source),
    (filter Icon.sets_source (Icon.draw_body_shape cx cy psize true) = [] /\
     filter Icon.sets_source (Icon.draw_head cx cy psize true) = [] /\
     filter Icon.sets_source (Icon.draw_wings cx cy psize true) = []) /\
    (Icon.sources_used cur saved (Icon.draw_body_shape cx cy psize true)
     = [cur] /\
     Icon.sources_used cur saved (Icon.draw_head cx cy psize true)
     = [cur] /\
     Icon.sources_used cur saved (Icon.draw_wings cx cy psize true)
     = [cur; cur]) /\
    Forall (fun src => exists pat, src = Icon.Gradient pat)
      (Icon.sources_used cur saved (Icon.draw_body_shape cx cy psize false)
       ++ Icon.sources_used cur saved (Icon.draw_head cx cy psize false)
       ++ Icon.sources_used cur saved (Icon.draw_wings cx cy psize false)).
Proof.
  intros cx cy psize cur saved.
  split; [repeat split; reflexivity|].
  split; [repeat split; reflexivity|].
  repeat constructor; eexists; reflexivity.
Qed.

(** X17: a variant name that is neither ["dark"] nor ["tinted"] is drawn
    exactly as ["light"]: no name is refused. *)
Theorem unknown_variant_is_drawn_as_light :
  forall variant : string,
    variant <> "dark"%string -> variant <> "tinted"%string ->
    Icon.generate_icon variant = Icon.generate_icon "light".
Proof.
  intros variant Hd Ht.
  apply String.eqb_neq in Hd. apply String.eqb_neq in Ht.
  unfold Icon.generate_icon, Icon.draw_background, Icon.draw_penguin_full.
  rewrite Hd, Ht. reflexivity.
Qed.

(** X17 on a misspelt name. *)
Lemma unknown_variant_is_drawn_as_light_witness :
  Icon.generate_icon "Dark" = Icon.generate_icon "light".
Proof.
  apply unknown_variant_is_drawn_as_light; discriminate.
Defined.

(** X18: every drawing function restores exactly what it saved, for every
    centre, size and mode, and so does the whole icon for every variant
    name: no [restore] ever finds the stack empty and the depth at the
    end is the depth at the start. *)
Theorem drawing_balances_save_and_restore :
  forall (cx cy psize : R) (shadow : bool) (d : nat),
    (Icon.save_depth d (Icon.draw_body_shape cx cy psize shadow) = Some d /\
     Icon.save_depth d (Icon.draw_belly cx cy psize) = Some d /\
     Icon.save_depth d (Icon.draw_head cx cy psize shadow) = Some d /\
     Icon.save_depth d (Icon.draw_face_patch cx cy psize) = Some d /\
     Icon.save_depth d (Icon.draw_eyes cx cy psize) = Some d /\
     Icon.save_depth d (Icon.draw_beak cx cy psize) = Some d /\
     Icon.save_depth d (Icon.draw_cheek_blush cx cy psize) = Some d /\
     Icon.save_depth d (Icon.draw_wings cx cy psize shadow) = Some d /\
     Icon.save_depth d (Icon.draw_scarf cx cy psize) = Some d /\
     Icon.save_depth d (Icon.draw_feet cx cy psize) = Some d /\
     Icon.save_depth d (Icon.draw_tinted_silhouette cx cy psize) = Some d) /\
    (forall draw_func,
        (forall d', Icon.save_depth d' draw_func = Some d') ->
        Icon.save_depth d (Icon.draw_drop_shadow draw_func) = Some d) /\
    (forall variant, Icon.save_depth d (Icon.generate_icon variant) = Some d).
Proof.
  intros cx cy psize shadow d.
  split; [destruct shadow; repeat split; reflexivity|].
  split.
  - intros draw_func Hf. unfold Icon.draw_drop_shadow.
    cbn [app Icon.save_depth].
    rewrite save_depth_app, save_depth_flat_map; [reflexivity|].
    intros i d'. cbn [app Icon.save_depth].
    now rewrite save_depth_app, Hf.
  - intros variant. unfold Icon.generate_icon, Icon.draw_background,
      Icon.draw_penguin_full.
    destruct (String.eqb variant "tinted"), (String.eqb variant "dark");
      reflexivity.
Qed.

(** X18 for a drop shadow under the body and the head. *)
Lemma drawing_balances_save_and_restore_witness :
  Icon.save_depth 0
    (Icon.draw_drop_shadow
       (Icon.draw_body_shape 2048 2108 2720 true
        ++ Icon.draw_head 2048 2108 2720 true))
  = Some 0%nat.
Proof.
  refine (proj1 (proj2 (drawing_balances_save_and_restore
                          2048 2108 2720 true 0)) _ _).
  intros d'. reflexivity.
Defined.


(** ** Running the embedding loop again *)
Section EmbedAgain.
Import Embed.
Local Open Scope string_scope.
Variable b64encode : list Byte.byte -> string.
Variable splitext_lower : string -> string.

Lemma mem_true_in x l : mem x l = true -> In x l.
Proof.
  unfold mem. intros H. apply existsb_exists in H.
  destruct H as (y & Hy & E). apply String.eqb_eq in E. now subst.
Qed.

Lemma embedded_key_is_data_uri z a :
  String.prefix "images/data:"
    (lookup_key (embedded b64encode splitext_lower z a)) = true.
Proof.
  unfold lookup_key, embedded. cbn [a_p get].
  cbn [String.append String.prefix].
  repeat (destruct (Ascii.ascii_dec _ _) as [_|Hne];
          [|now elim Hne]; cbn [String.prefix]).
  now destruct (mime_of _ _ ++ _).
Qed.

(** The embedded form of an asset is never found again, when no entry of
    the archive is named like a data URI. *)
Lemma embedded_not_found z a :
  (forall n, In n (namelist z) -> String.prefix "images/data:" n = false) ->
  found z (embedded b64encode splitext_lower z a) = false.
Proof.
  intros Hz. unfold found.
  destruct (mem _ (image_files z)) eqn:Hm; [|reflexivity].
  apply mem_true_in in Hm. unfold image_files in Hm.
  apply filter_In in Hm. destruct Hm as [Hn _].
  apply Hz in Hn. now rewrite embedded_key_is_data_uri in Hn.
Qed.
End EmbedAgain.

Section EmbedTwice.
Import Embed.
Local Open Scope string_scope.
Variable b64encode : list Byte.byte -> string.
Variable splitext_lower : string -> string.

Local Abbreviation run := (Embed.embed_assets b64encode splitext_lower).
Local Abbreviation emb := (Embed.embedded b64encode splitext_lower).

Lemma embed_assets_result z assets :
  fst (run z assets)
  = map (fun a => if found z a then emb z a else a) assets.
Proof.
  induction assets as [|a rest IH]; [reflexivity|].
  rewrite embed_assets_cons. cbn [fst map]. rewrite IH. f_equal.
  destruct (found z a) eqn:Hf.
  - now rewrite embed_asset_found.
  - now rewrite embed_asset_missing.
Qed.

Lemma embed_assets_all_missing z assets :
  Forall (fun a => found z a = false) assets ->
  fst (run z assets) = assets /\
  filter EmbedLog.is_embedded (snd (run z assets)) = [].
Proof.
  induction 1 as [|a rest Ha _ [IH1 IH2]]; [split; reflexivity|].
  rewrite embed_assets_cons, embed_asset_missing by assumption.
  cbn [fst snd]. split; [now rewrite IH1|].
  rewrite filter_app, IH2. reflexivity.
Qed.

End EmbedTwice.

(** X20: running the embedding loop on its own result changes nothing and
    embeds nothing, provided no entry of the archive has a name that
    starts with [images/data:]: an embedded asset's [p] is a data URI, and
    no image is looked up under it. *)
Theorem embedding_twice_is_embedding_once :
  forall (b64encode : list Byte.byte -> string)
         (splitext_lower : string -> string)
         (z : Embed.archive) (assets : list Embed.asset),
    (forall n, In n (Embed.namelist z) ->
               String.prefix "images/data:" n = false) ->
    let run := Embed.embed_assets b64encode splitext_lower z in
    fst (run (fst (run assets))) = fst (run assets) /\
    filter EmbedLog.is_embedded (snd (run (fst (run assets)))) = [].
Proof.
  intros b64encode splitext_lower z assets Hz run. subst run.
  apply embed_assets_all_missing.
  rewrite embed_assets_result. apply Forall_forall. intros a' Hin.
  apply in_map_iff in Hin. destruct Hin as (a & <- & _).
  destruct (Embed.found z a) eqn:Hf; [|exact Hf].
  now apply embedded_not_found.
Qed.

(** X20 on the sample archive and assets. *)
Lemma embedding_twice_is_embedding_once_witness :
  fst (Embed.embed_assets (fun _ => "QQ"%string) (fun _ => ".png"%string)
         Embed.sample_archive
         (fst (Embed.embed_assets (fun _ => "QQ"%string)
                 (fun _ => ".png"%string) Embed.sample_archive
                 Embed.sample_assets)))
  = fst (Embed.embed_assets (fun _ => "QQ"%string) (fun _ => ".png"%string)
           Embed.sample_archive Embed.sample_assets).
Proof.
  refine (proj1 (embedding_twice_is_embedding_once
                   (fun _ => "QQ"%string) (fun _ => ".png"%string)
                   Embed.sample_archive Embed.sample_assets _)).
  intros n [<- | [<- | []]]; reflexivity.
Defined.


(** ** What reaches the document *)

(** X22: [generate_lottie] builds the body's rotation sway but attaches it
    to no layer: in the document every layer's rotation is the constant 0
    or the constant 3, while the transform returned by
    [build_body_sway_layer] has an animated rotation.  The twelve layers
    come out front to back with the indices 0 to 11. *)
Theorem document_has_no_rotation_sway :
  forall fuel,
    (5 < fuel)%nat ->
    exists doc sway rot,
      Timeline.generate_lottie fuel = Some doc /\
      Timeline.build_body_sway_layer fuel = Some sway /\
      Timeline.tr_r sway = Timeline.Animated rot /\
      List.length rot = 6%nat /\
      Forall (fun l =>
                Timeline.tr_r (Timeline.ks l) = Timeline.Static 0%Q \/
                Timeline.tr_r (Timeline.ks l) = Timeline.Static 3%Q)
             (Timeline.layers doc) /\
      map (fun l => (Timeline.nm l, Timeline.ind l)) (Timeline.layers doc)
      = [ ("Blush", Some 0); ("Beak", Some 1); ("Right Eye", Some 2);
          ("Left Eye", Some 3); ("Face Patch", Some 4); ("Head", Some 5);
          ("Scarf", Some 6); ("Right Wing", Some 7); ("Left Wing", Some 8);
          ("Belly", Some 9); ("Body", Some 10); ("Feet", Some 11)
        ]%string%Z.
Proof.
  intros fuel Hf.
  rewrite generate_lottie_fuel, build_body_sway_layer_fuel by assumption.
  do 3 eexists. split; [cbv; reflexivity|].
  split; [cbv; reflexivity|]. split; [reflexivity|].
  split; [reflexivity|]. split; [|reflexivity].
  cbn [Timeline.layers].
  repeat (apply Forall_cons || apply Forall_nil);
    cbn [Timeline.ks Timeline.tr_r]; first [left; reflexivity | right; reflexivity].
Qed.

(** X22 with six units of fuel. *)
Lemma document_has_no_rotation_sway_witness :
  exists doc,
    Timeline.generate_lottie 6 = Some doc /\
    Forall (fun l =>
              Timeline.tr_r (Timeline.ks l) = Timeline.Static 0%Q \/
              Timeline.tr_r (Timeline.ks l) = Timeline.Static 3%Q)
           (Timeline.layers doc).
Proof.
  destruct (document_has_no_rotation_sway 6)
    as (doc & sway & rot & E & _ & _ & _ & F & _).
  - lia.
  - exists doc. split; [exact E | exact F].
Defined.
